(** * Companies House client and batch reader: a shallow embedding

    The development follows the two source files:
    - [CompaniesHouseService.py]: the class [CompaniesHouseService]
      (rate limiter, HTTP query, search, profile, directors, charges);
    - [CompaniesHouseRead.py]: the loop that walks the rows of the input
      frame and fills the output columns.

    Python values that come out of [json.JSONDecoder().decode] are the
    inductive type [json]; a Python exception is the [Raise] outcome of the
    monad [M], which threads the mutable state of the client instance
    together with the clock and the registry it talks to. *)

From Stdlib Require Import ZArith Ascii String List Lia Bool.
From stdpp Require Import base option list gmap strings pretty.

Set Warnings "-register-all".

Local Open Scope string_scope.
Local Open Scope Z_scope.

(** ** Decoded JSON values

    A decoded object is a Python [dict]; it is kept as an association list
    in insertion order, read by its first binding of a key.  A JSON number
    with a fraction or an exponent decodes to a [float]; no arithmetic is
    ever done on one, so it is kept as the text Python prints for it. *)

Inductive json : Type :=
| JNull
| JBool (b : bool)
| JInt (z : Z)
| JFloat (text : string)
| JStr (s : string)
| JArr (items : list json)
| JObj (fields : list (string * json)).

(** ** Exceptions and outcomes *)

Inductive exn : Type :=
| KeyError
| IndexError
| TypeError
| JSONDecodeError
| RequestException.

Inductive outcome (A : Type) : Type :=
| Ok (a : A)
| Raise (e : exn).

Arguments Ok {A} a.
Arguments Raise {A} e.

Definition obind {A B} (o : outcome A) (k : A -> outcome B) : outcome B :=
  match o with
  | Ok a => k a
  | Raise e => Raise e
  end.

Notation "'try!' x <- c1 ; c2" := (obind c1 (fun x => c2))
  (at level 10, x name, c1 at level 100, c2 at level 200).

(** ** Python primitives on decoded values *)

Fixpoint assoc (k : string) (d : list (string * json)) : option json :=
  match d with
  | [] => None
  | (k', v) :: d' => if String.eqb k k' then Some v else assoc k d'
  end.

(** [v[k]] for a string key [k]. *)
Definition getitem (v : json) (k : string) : outcome json :=
  match v with
  | JObj d => match assoc k d with Some x => Ok x | None => Raise KeyError end
  | _ => Raise TypeError
  end.

Definition char_at (s : string) (n : nat) : option json :=
  match String.get n s with
  | Some c => Some (JStr (String c EmptyString))
  | None => None
  end.

(** [v[n]] for a non-negative integer index [n].  The keys of a decoded
    object are strings, so an integer is never one of them. *)
Definition getindex (v : json) (n : nat) : outcome json :=
  match v with
  | JArr l => match l !! n with Some x => Ok x | None => Raise IndexError end
  | JStr s => match char_at s n with Some x => Ok x | None => Raise IndexError end
  | JObj _ => Raise KeyError
  | _ => Raise TypeError
  end.

Definition is_str (k : string) (v : json) : bool :=
  match v with
  | JStr s => String.eqb s k
  | _ => false
  end.

Fixpoint is_substring (k s : string) : bool :=
  if String.prefix k s then true
  else match s with
       | EmptyString => false
       | String _ s' => is_substring k s'
       end.

(** [k in v] for a string [k]. *)
Definition contains (k : string) (v : json) : outcome bool :=
  match v with
  | JObj d => Ok (bool_decide (is_Some (assoc k d)))
  | JArr l => Ok (existsb (is_str k) l)
  | JStr s => Ok (is_substring k s)
  | _ => Raise TypeError
  end.

Fixpoint chars (s : string) : list json :=
  match s with
  | EmptyString => []
  | String c s' => JStr (String c EmptyString) :: chars s'
  end.

(** The elements a [for x in v] loop walks through. *)
Definition iterate (v : json) : outcome (list json) :=
  match v with
  | JArr l => Ok l
  | JObj d => Ok (map (fun kv => JStr (fst kv)) d)
  | JStr s => Ok (chars s)
  | _ => Raise TypeError
  end.

(** [prefix + v] where [prefix] is a [str]: [v] has to be a [str] too. *)
Definition concat_str (prefix : string) (v : json) : outcome string :=
  match v with
  | JStr s => Ok (prefix ++ s)
  | _ => Raise TypeError
  end.

(** [v[0:n]]; only the [str] case has a use here, a list slice is kept as
    a list so that the concatenation that follows raises as in Python. *)
Definition slice_to (n : nat) (v : json) : outcome json :=
  match v with
  | JStr s => Ok (JStr (String.substring 0 n s))
  | JArr l => Ok (JArr (take n l))
  | _ => Raise TypeError
  end.

Definition is_empty_dict (v : json) : bool :=
  match v with
  | JObj [] => true
  | _ => false
  end.

(** [str(v)]: a [str] is itself; for any other value the text is Python's
    [repr], a built-in that the environment below supplies. *)
Definition py_str (repr : json -> string) (v : json) : string :=
  match v with
  | JStr s => s
  | _ => repr v
  end.

(** ** Text helpers

    [str.upper], [str.title] and [str.strip] on ASCII text; a character
    outside ASCII is left as it is. *)

Definition is_lower (c : ascii) : bool :=
  let n := nat_of_ascii c in (97 <=? n)%nat && (n <=? 122)%nat.

Definition is_upper (c : ascii) : bool :=
  let n := nat_of_ascii c in (65 <=? n)%nat && (n <=? 90)%nat.

Definition to_upper (c : ascii) : ascii :=
  if is_lower c then ascii_of_nat (nat_of_ascii c - 32) else c.

Definition to_lower (c : ascii) : ascii :=
  if is_upper c then ascii_of_nat (nat_of_ascii c + 32) else c.

Fixpoint upper (s : string) : string :=
  match s with
  | EmptyString => EmptyString
  | String c s' => String (to_upper c) (upper s')
  end.

(** [previous_cased] tells whether the character before was a letter. *)
Fixpoint title_from (previous_cased : bool) (s : string) : string :=
  match s with
  | EmptyString => EmptyString
  | String c s' =>
      let cased := is_lower c || is_upper c in
      String (if previous_cased then to_lower c else to_upper c)
             (title_from cased s')
  end.

Definition title (s : string) : string := title_from false s.

Definition is_space (c : ascii) : bool :=
  let n := nat_of_ascii c in
  (n =? 32)%nat || ((9 <=? n)%nat && (n <=? 13)%nat)
  || ((28 <=? n)%nat && (n <=? 31)%nat).

Fixpoint lstrip (s : string) : string :=
  match s with
  | EmptyString => EmptyString
  | String c s' => if is_space c then lstrip s' else s
  end.

Fixpoint rstrip (s : string) : string :=
  match s with
  | EmptyString => EmptyString
  | String c s' =>
      match rstrip s' with
      | EmptyString => if is_space c then EmptyString else String c EmptyString
      | t => String c t
      end
  end.

Definition strip (s : string) : string := rstrip (lstrip s).

(** The line feed of the source's ["\n"]. *)
Definition nl : string := String (ascii_of_nat 10) EmptyString.

(** ** The environment and the mutable state

    The registry answers the [n]-th request sent with a key to a URL with
    a status code and, when the body is JSON text, the decoded body; or
    the transport fails and [requests.get] raises.  Time is counted in
    microseconds, the resolution of [datetime]; [latency n] is the time
    that passes at the [n]-th step that takes time (reading the clock,
    oversleeping, the round trip of a request). *)

Inductive http_reply : Type :=
| Reply (status_code : Z) (decoded : option json)
| Failed.

Record environment : Type := {
  registry : nat -> string -> string -> http_reply;
  latency : nat -> Z;
  py_repr : json -> string
}.

(** [last_request_timestamp] is the attribute of the client instance; the
    other fields are the world it runs in: the clock, the number of timed
    steps so far, the arguments of [time.sleep] and the requests sent with
    the time each one left, latest first. *)
Record state : Type := {
  last_request_timestamp : option Z;
  clock : Z;
  ticks : nat;
  sleeps : list Z;
  requests : list (Z * string)
}.

Definition M (A : Type) : Type := state -> outcome A * state.

Definition ret {A} (a : A) : M A := fun st => (Ok a, st).

Definition raise {A} (e : exn) : M A := fun st => (Raise e, st).

Definition bind {A B} (c : M A) (k : A -> M B) : M B :=
  fun st =>
    match c st with
    | (Ok a, st') => k a st'
    | (Raise e, st') => (Raise e, st')
    end.

Definition lift {A} (o : outcome A) : M A := fun st => (o, st).

Notation "'do!' x <- c1 ; c2" := (bind c1 (fun x => c2))
  (at level 10, x name, c1 at level 100, c2 at level 200).

Notation "c1 ;; c2" := (bind c1 (fun _ => c2))
  (at level 100, c2 at level 200, right associativity).

(** The constructor arguments of [CompaniesHouseService]. *)
Record CompaniesHouseService : Type := {
  key : string;
  time_between_requests : Z
}.

(** The default 0.6 seconds of [__init__]. *)
Definition default_time_between_requests : Z := 600000.

(** The state right after [__init__]: no request was made yet. *)
Definition fresh (t0 : Z) : state :=
  {| last_request_timestamp := None; clock := t0; ticks := 0%nat;
     sleeps := []; requests := [] |}.

(** The URL templates, each the text in front of its only placeholder,
    which ends the template. *)
Definition search_url : string :=
  "https://api.companieshouse.gov.uk/search/companies?q=".
Definition company_url : string := "https://api.companieshouse.gov.uk/company/".
Definition root_url : string := "https://api.companieshouse.gov.uk".

Definition format (url query : string) : string := url ++ query.

Section Service.

Variable E : environment.
Variable self : CompaniesHouseService.

(** [datetime.datetime.now()] *)
Definition now : M Z := fun st =>
  let t := clock st + latency E (ticks st) in
  (Ok t,
   {| last_request_timestamp := last_request_timestamp st; clock := t;
      ticks := S (ticks st); sleeps := sleeps st; requests := requests st |}).

(** [time.sleep(w)]: at least [w] passes. *)
Definition sleep (w : Z) : M unit := fun st =>
  (Ok tt,
   {| last_request_timestamp := last_request_timestamp st;
      clock := clock st + w + latency E (ticks st);
      ticks := S (ticks st); sleeps := w :: sleeps st;
      requests := requests st |}).

Definition set_last_request_timestamp (t : Z) : M unit := fun st =>
  (Ok tt,
   {| last_request_timestamp := Some t; clock := clock st;
      ticks := ticks st; sleeps := sleeps st; requests := requests st |}).

Definition get_last_request_timestamp : M (option Z) := fun st =>
  (Ok (last_request_timestamp st), st).

Definition _rate_limiting : M unit :=
  do! last <- get_last_request_timestamp;
  match last with
  | None =>
      do! t <- now;
      set_last_request_timestamp t
  | Some last =>
      do! current_time <- now;
      let time_since_request := current_time - last in
      let wait_time := Z.max (time_between_requests self - time_since_request) 0 in
      sleep wait_time ;;
      do! t <- now;
      set_last_request_timestamp t
  end.

(** [requests.get(url, auth=(self.key, ''))]: the request leaves at the
    current time and its round trip takes time. *)
Definition requests_get (url : string) : M (Z * option json) := fun st =>
  let st' :=
    {| last_request_timestamp := last_request_timestamp st;
       clock := clock st + latency E (ticks st);
       ticks := S (ticks st); sleeps := sleeps st;
       requests := (clock st, url) :: requests st |} in
  match registry E (length (requests st)) (key self) url with
  | Reply status_code decoded => (Ok (status_code, decoded), st')
  | Failed => (Raise RequestException, st')
  end.

Definition _query_ch_api (url query : string) : M json :=
  _rate_limiting ;;
  do! resultQuery <- requests_get (format url query);
  if fst resultQuery =? 200 then
    match snd resultQuery with
    | Some result => ret result
    | None => raise JSONDecodeError
    end
  else ret (JObj []).

(** [text.replace(old, new)] for an [old] of one character. *)
Fixpoint replace_char (old : ascii) (new text : string) : string :=
  match text with
  | EmptyString => EmptyString
  | String c rest =>
      if Ascii.eqb c old then new ++ replace_char old new rest
      else String c (replace_char old new rest)
  end.

(** The argument is called [string] in the source. *)
Definition _remove_problem_characters (text : string) : string :=
  let text := replace_char " " "+" text in
  let text := replace_char "&" "%26" text in
  text.

Definition get_first_company_search (company_name : string) : M json :=
  do! search_result <- _query_ch_api search_url company_name;
  match (try! items <- getitem search_result "items"; getindex items 0) with
  | Ok first_result => ret first_result
  | Raise IndexError => ret JNull
  | Raise e => raise e
  end.

Definition get_company_profile (company_number : string) : M json :=
  _query_ch_api company_url company_number.

Fixpoint directors_loop (officer_list directors : list json)
  : outcome (list json) :=
  match officer_list with
  | [] => Ok directors
  | officer :: rest =>
      try! role <- getitem officer "officer_role";
      if is_str "director" role then
        try! name <- getitem officer "name";
        directors_loop rest (directors ++ [name])
      else directors_loop rest directors
  end.

Definition get_company_directors (officers_path : string) : M (list json) :=
  do! officers <-
    _query_ch_api root_url (officers_path ++ "?items_per_page=200?start_index=0");
  do! officer_list <- lift (getitem officers "items");
  do! elements <- lift (iterate officer_list);
  lift (directors_loop elements []).

Fixpoint count_loop (charges_list : list json) (requiredLength : nat)
  : outcome nat :=
  match charges_list with
  | [] => Ok requiredLength
  | charge :: rest =>
      try! status <- getitem charge "status";
      if negb (is_str "fully-satisfied" status)
      then count_loop rest (S requiredLength)
      else count_loop rest requiredLength
  end.

(** [table[index][column] = text] on a list of lists; Python raises out of
    range. *)
Definition set_cell (table : list (list string)) (index column : nat)
    (text : string) : outcome (list (list string)) :=
  match table !! index with
  | Some row =>
      if decide (column < length row)%nat
      then Ok (<[index := <[column := text]> row]> table)
      else Raise IndexError
  | None => Raise IndexError
  end.

(** The six assignments made for a charge that is not fully satisfied. *)
Definition fill_row (charge : json) (index : nat)
    (unsatisfiedCharges : list (list string)) : outcome (list (list string)) :=
  try! classification <- getitem charge "classification";
  try! description <- getitem classification "description";
  try! field0 <- concat_str "Description: " description;
  try! table <- set_cell unsatisfiedCharges index 0 field0;
  try! created_on <- getitem charge "created_on";
  try! field1 <- concat_str "Created: " created_on;
  try! table <- set_cell table index 1 field1;
  try! delivered_on <- getitem charge "delivered_on";
  try! field2 <- concat_str "Delivered: " delivered_on;
  try! table <- set_cell table index 2 field2;
  try! status <- getitem charge "status";
  try! field3 <- concat_str "Status: " status;
  try! table <- set_cell table index 3 field3;
  try! persons_entitled <- getitem charge "persons_entitled";
  try! first <- getindex persons_entitled 0;
  try! name <- getitem first "name";
  try! field4 <- concat_str "Persons entitled: " name;
  try! table <- set_cell table index 4 field4;
  try! particulars <- getitem charge "particulars";
  try! present <- contains "description" particulars;
  if present then
    try! particulars <- getitem charge "particulars";
    try! description <- getitem particulars "description";
    try! head <- slice_to 100 description;
    try! field5 <- concat_str "Short particulars: " head;
    set_cell table index 5 (field5 ++ "...")
  else set_cell table index 5 "[No Result]".

Fixpoint fill_loop (charges_list : list json) (requiredLength index : nat)
    (unsatisfiedCharges : list (list string)) : outcome (list (list string)) :=
  match charges_list with
  | [] => Ok unsatisfiedCharges
  | charge :: rest =>
      try! status <- getitem charge "status";
      if negb (is_str "fully-satisfied" status) then
        try! table <- fill_row charge index unsatisfiedCharges;
        let index := S index in
        if (index =? requiredLength)%nat then Ok table
        else fill_loop rest requiredLength index table
      else fill_loop rest requiredLength index unsatisfiedCharges
  end.

Definition get_company_charges (charges_path : string)
  : M (list (list string)) :=
  do! charges <-
    _query_ch_api root_url (charges_path ++ "?items_per_page=200?start_index=0");
  do! charges_list <- lift (getitem charges "items");
  do! elements <- lift (iterate charges_list);
  do! requiredLength <- lift (count_loop elements 0);
  let rows := requiredLength in
  let columns := 6%nat in
  let unsatisfiedCharges := replicate rows (replicate columns "") in
  lift (fill_loop elements requiredLength 0 unsatisfiedCharges).

End Service.

(** The script at the foot of the service file: [iterations] profile
    requests in a row between two readings of the clock; what it returns
    is [time_taken], in microseconds.  The source runs it with
    [main_key], the default interval and ten iterations. *)
Definition main_key : string := "vLmk-4YxYS-QH8nMi8767zJSlcPlo3MKn41-d".

Definition main_iterations : nat := 10.

Fixpoint profile_loop (E : environment) (ch_api : CompaniesHouseService)
    (iterations : nat) : M unit :=
  match iterations with
  | O => ret tt
  | S remaining =>
      do! ch_profile <- get_company_profile E ch_api "00445790";
      profile_loop E ch_api remaining
  end.

Definition benchmark (E : environment) (ch_api : CompaniesHouseService)
    (iterations : nat) : M Z :=
  do! tic <- now E;
  profile_loop E ch_api iterations ;;
  do! toc <- now E;
  let time_taken := toc - tic in
  ret time_taken.

(** ** The batch reader

    The data frame is the list of its rows, a row maps a column title to
    the text of its cell, and a cell that pandas holds as NaN is a missing
    key.  The labels of the frame's index are the positions [0], [1], ...
    that [read_csv] and [read_excel] give, and the frame has a
    ["Company Number"] column, as the opening message asks. *)

Record flags : Type := {
  getOfficers : bool;
  getCharges : bool;
  getInsolvency : bool
}.

(** The values the source sets at its top. *)
Definition source_flags : flags :=
  {| getOfficers := false; getCharges := false; getInsolvency := true |}.

(** [str(cell)] *)
Definition cell_str (cell : option string) : string :=
  match cell with
  | Some s => s
  | None => "nan"
  end.

(** [df.at[index, column] = text], for an [index] that labels a row. *)
Definition at_set (df : list (gmap string string)) (index : nat)
    (column text : string) : list (gmap string string) :=
  alter (fun row => <[column := text]> row) index df.

(** [df.at[index, column]] *)
Definition at_get (df : list (gmap string string)) (index : nat)
    (column : string) : option string :=
  match df !! index with
  | Some row => row !! column
  | None => None
  end.

(** [df.at[index, column] += text]: NaN plus a [str] is a [TypeError]. *)
Definition at_iadd (df : list (gmap string string)) (index : nat)
    (column text : string) : outcome (list (gmap string string)) :=
  match at_get df index column with
  | Some old => Ok (at_set df index column (old ++ text))
  | None => Raise TypeError
  end.

(** [text + df.at[index, column]] inside a [print]. *)
Definition print_cell (df : list (gmap string string)) (index : nat)
    (column : string) : outcome unit :=
  match at_get df index column with
  | Some _ => Ok tt
  | None => Raise TypeError
  end.

(** What is left of the loop body for the current row. *)
Inductive flow : Type :=
| Continue (df : list (gmap string string))
| Next (df : list (gmap string string)).

Fixpoint directors_string_loop (directors : list json)
    (directors_string : string) : outcome string :=
  match directors with
  | [] => Ok directors_string
  | director :: rest =>
      match director with
      | JStr name =>
          directors_string_loop rest (directors_string ++ (name ++ " | "))
      | _ => Raise TypeError
      end
  end.

(** The inner [while] over the fields of one charge. *)
Fixpoint fields_loop (charge : list string) (fieldIndices : list nat)
    (charges_string : string) : outcome string :=
  match fieldIndices with
  | [] => Ok charges_string
  | fieldIndex :: rest =>
      match charge !! fieldIndex with
      | Some field => fields_loop charge rest (charges_string ++ (field ++ nl))
      | None => Raise IndexError
      end
  end.

(** The outer [while]; [width] is [len(charges[0])]. *)
Fixpoint charges_string_loop (remaining : list (list string))
    (chargeIndex width : nat) (charges_string : string) : outcome string :=
  match remaining with
  | [] => Ok charges_string
  | charge :: rest =>
      let charges_string := charges_string ++ (pretty chargeIndex ++ (":" ++ nl)) in
      try! charges_string <- fields_loop charge (seq 0 width) charges_string;
      charges_string_loop rest (S chargeIndex) width (charges_string ++ nl)
  end.

Section Reader.

Variable E : environment.
Variable companyHouseAPI : CompaniesHouseService.
Variable config : flags.

Definition str (v : json) : string := py_str (py_repr E) v.

(** One of the six [if ... in company_profile['registered_office_address']]
    blocks; [separator] is empty for the first and [", "] for the others. *)
Definition address_component (company_profile : json) (index : nat)
    (component separator : string) (df : list (gmap string string))
  : outcome (list (gmap string string)) :=
  try! address <- getitem company_profile "registered_office_address";
  try! present <- contains component address;
  if present then
    try! address <- getitem company_profile "registered_office_address";
    try! value <- getitem address component;
    at_iadd df index "Registered Office Address" (separator ++ str value)
  else Ok df.

(** The [else] branch of a profile that is not empty. *)
Definition profile_fields (company_profile : json) (index : nat)
    (df : list (gmap string string)) : outcome (list (gmap string string)) :=
  try! company_name <- getitem company_profile "company_name";
  let df := at_set df index "Company Name" (str company_name) in
  try! jurisdiction <- getitem company_profile "jurisdiction";
  let df := at_set df index "Jurisdiction" (title (str jurisdiction)) in
  try! type <- getitem company_profile "type";
  let df := at_set df index "Type" (upper (str type)) in
  let df := at_set df index "Registered Office Address" "" in
  try! df <- address_component company_profile index "address_line_1" "" df;
  try! df <- address_component company_profile index "address_line_2" ", " df;
  try! df <- address_component company_profile index "locality" ", " df;
  try! df <- address_component company_profile index "region" ", " df;
  try! df <- address_component company_profile index "postal_code" ", " df;
  address_component company_profile index "country" ", " df.

(** The progress line of a row that has a profile; only the evaluation of
    its argument is kept, the text goes to the standard output. *)
Definition print_progress (company_profile : json) : outcome unit :=
  try! _ <- getitem company_profile "company_name";
  Ok tt.

Definition officers_step (company_profile : json) (index : nat)
    (df : list (gmap string string)) : M flow :=
  if getOfficers config then
    do! links <- lift (getitem company_profile "links");
    do! present <- lift (contains "officers" links);
    if negb present then
      let df := at_set df index "Directors" "[No Directors]" in
      lift (print_progress company_profile) ;;
      ret (Continue df)
    else
      do! links <- lift (getitem company_profile "links");
      do! officers <- lift (getitem links "officers");
      let officers_path := str officers in
      do! directors <- get_company_directors E companyHouseAPI officers_path;
      do! directors_string <- lift (directors_string_loop directors "");
      let df := at_set df index "Directors" directors_string in
      lift (print_cell df index "Company Number") ;;
      lift (print_cell df index "Company Name") ;;
      ret (Next df)
  else ret (Next df).

Definition charges_step (company_profile : json) (index : nat)
    (df : list (gmap string string)) : M flow :=
  if getCharges config then
    do! links <- lift (getitem company_profile "links");
    do! present <- lift (contains "charges" links);
    if negb present then
      let df := at_set df index "Charges" "[No Charges]" in
      lift (print_progress company_profile) ;;
      ret (Continue df)
    else
      do! links <- lift (getitem company_profile "links");
      do! charges_link <- lift (getitem links "charges");
      let charges_path := str charges_link in
      do! charges <- get_company_charges E companyHouseAPI charges_path;
      let width := match charges with charge :: _ => length charge | [] => 0%nat end in
      do! charges_string <- lift (charges_string_loop charges 1 width "");
      let charges_string := strip charges_string in
      ret (Next (at_set df index "Charges" charges_string))
  else ret (Next df).

Definition insolvency_step (company_profile : json) (index : nat)
    (df : list (gmap string string)) : M flow :=
  if getInsolvency config then
    do! links <- lift (getitem company_profile "links");
    do! present <- lift (contains "involvency" links);
    if negb present then
      let df := at_set df index "Insolvency" "[No Insolvency Data]" in
      lift (print_progress company_profile) ;;
      ret (Continue df)
    else
      do! hasInsolvencyHistory <- lift (getitem company_profile "has_insolvency_history");
      lift (concat_str "has insolvency history: " hasInsolvencyHistory) ;;
      ret (Next df)
  else ret (Next df).

(** A step that runs only when the one before did not [continue]. *)
Definition and_then (previous : M flow)
    (step : list (gmap string string) -> M flow) : M flow :=
  do! reached <- previous;
  match reached with
  | Continue df => ret (Continue df)
  | Next df => step df
  end.

Definition frame_of (reached : flow) : list (gmap string string) :=
  match reached with
  | Continue df => df
  | Next df => df
  end.

(** The body of the [for index, row in df.iterrows()] loop. *)
Definition loop_body (index : nat) (row : gmap string string)
    (df : list (gmap string string)) : M (list (gmap string string)) :=
  let company_number := cell_str (row !! "Company Number") in
  if String.eqb company_number "nan" then ret df
  else
    do! company_profile <- get_company_profile E companyHouseAPI company_number;
    if is_empty_dict company_profile then
      let df := at_set df index "Company Name" "[No Result]" in
      let df := at_set df index "Jurisdiction" "[No Result]" in
      let df := at_set df index "Type" "[No Result]" in
      let df := at_set df index "Registered Office Address" "[No Result]" in
      ret df
    else
      do! df <- lift (profile_fields company_profile index df);
      do! reached <-
        and_then
          (and_then
             (and_then (officers_step company_profile index df)
                       (charges_step company_profile index))
             (insolvency_step company_profile index))
          (fun df => lift (print_progress company_profile) ;; ret (Next df));
      ret (frame_of reached).

(** [iterrows] hands out the rows as they were when the loop started. *)
Fixpoint rows_loop (index : nat) (rows : list (gmap string string))
    (df : list (gmap string string)) : M (list (gmap string string)) :=
  match rows with
  | [] => ret df
  | row :: rest =>
      do! df <- loop_body index row df;
      rows_loop (S index) rest df
  end.

Definition fetch_all (df : list (gmap string string))
  : M (list (gmap string string)) :=
  rows_loop 0 df df.

End Reader.

(** ** The file that is read and the file that is written

    The script tells the two formats apart by the end of the path the
    dialog gave, with the slices [path[len(path) - 4 : len(path)]] and
    [path[len(path) - 5 : len(path)]]; the same test picks [to_csv] or
    [to_excel] when the frame is saved. *)

(** A bound of a slice: a negative one counts from the end, and both ends
    of the text stop it. *)
Definition slice_bound (bound : Z) (len : nat) : nat :=
  let bound := if bound <? 0 then bound + Z.of_nat len else bound in
  Z.to_nat (Z.min (Z.max bound 0) (Z.of_nat len)).

(** [text[start:stop]] *)
Definition slice (text : string) (start stop : Z) : string :=
  let len := String.length text in
  let first := slice_bound start len in
  let last := slice_bound stop len in
  String.substring first (last - first) text.

Inductive file_format : Type :=
| Csv
| Xlsx.

(** The branch the [if]/[elif] takes, and [None] when it takes none. *)
Definition format_of (path : string) : option file_format :=
  let len := Z.of_nat (String.length path) in
  if String.eqb (slice path (len - 4) len) ".csv" then Some Csv
  else if String.eqb (slice path (len - 5) len) ".xlsx" then Some Xlsx
  else None.

(** ** Reference definitions

    What the specification says of the results, to be compared with the
    loops of the source. *)

(** Every element in turn, stopping at the first that raises. *)
Fixpoint traverse {A B} (f : A -> outcome B) (l : list A) : outcome (list B) :=
  match l with
  | [] => Ok []
  | x :: rest =>
      try! y <- f x;
      try! ys <- traverse f rest;
      Ok (y :: ys)
  end.

(** A charge survives when its status is not ["fully-satisfied"]. *)
Definition unsatisfied (charge : json) : bool :=
  match getitem charge "status" with
  | Ok status => negb (is_str "fully-satisfied" status)
  | Raise _ => false
  end.

(** The six fields kept of a surviving charge. *)
Definition charge_fields (charge : json) : outcome (list string) :=
  try! classification <- getitem charge "classification";
  try! description <- getitem classification "description";
  try! field0 <- concat_str "Description: " description;
  try! created_on <- getitem charge "created_on";
  try! field1 <- concat_str "Created: " created_on;
  try! delivered_on <- getitem charge "delivered_on";
  try! field2 <- concat_str "Delivered: " delivered_on;
  try! status <- getitem charge "status";
  try! field3 <- concat_str "Status: " status;
  try! persons_entitled <- getitem charge "persons_entitled";
  try! first <- getindex persons_entitled 0;
  try! name <- getitem first "name";
  try! field4 <- concat_str "Persons entitled: " name;
  try! particulars <- getitem charge "particulars";
  try! present <- contains "description" particulars;
  try! field5 <-
    (if present then
       try! description <- getitem particulars "description";
       try! head <- slice_to 100 description;
       try! text <- concat_str "Short particulars: " head;
       Ok (text ++ "...")
     else Ok "[No Result]");
  Ok [field0; field1; field2; field3; field4; field5].


Definition has_key (k : string) (v : json) : Prop :=
  exists x, getitem v k = Ok x.

(** Request times, latest first, each at least [interval] after the one
    before it. *)
Fixpoint well_spaced (interval : Z) (times : list Z) : Prop :=
  match times with
  | later :: ((earlier :: _) as rest) =>
      earlier + interval <= later /\ well_spaced interval rest
  | _ => True
  end.

(** Any sequence of calls on one client instance: each is a URL template
    and a query; a call that raises leaves the instance in use. *)
Fixpoint query_all (E : environment) (self : CompaniesHouseService)
    (calls : list (string * string)) (st : state) : state :=
  match calls with
  | [] => st
  | (url, query) :: rest =>
      query_all E self rest (snd (_query_ch_api E self url query st))
  end.

(** The four profile columns all hold the ["[No Result]"] marker. *)
Definition profile_sentinel (row : gmap string string) : Prop :=
  row !! "Company Name" = Some "[No Result]" /\
  row !! "Jurisdiction" = Some "[No Result]" /\
  row !! "Type" = Some "[No Result]" /\
  row !! "Registered Office Address" = Some "[No Result]".

Definition is_blank (row : gmap string string) : Prop :=
  cell_str (row !! "Company Number") = "nan".

(** The components of an address that are there, in the fixed order. *)
Definition address_keys : list string :=
  ["address_line_1"; "address_line_2"; "locality"; "region"; "postal_code";
   "country"].

(** What one address block appends: the separator and the component when
    the component is there. *)
Definition address_piece (E : environment) (address : list (string * json))
    (component separator : string) : string :=
  match assoc component address with
  | Some value => separator ++ str E value
  | None => ""
  end.

(** The address text the six blocks build one after the other. *)
Definition address_text (E : environment) (address : list (string * json))
  : string :=
  fold_left
    (fun text component =>
       text ++ address_piece E address component
                 (if String.eqb component "address_line_1" then "" else ", "))
    address_keys "".


(** The latest request is the one the timestamp was taken for. *)
Definition stamped (st : state) : Prop :=
  match requests st with
  | [] => True
  | (t, _) :: _ => last_request_timestamp st = Some t
  end.

(** [df'] is [df] with, at most, cells of row [index] under [columns]
    written. *)
Definition touches (columns : list string) (index : nat)
    (df df' : list (gmap string string)) : Prop :=
  length df' = length df /\
  (forall j, j <> index -> df' !! j = df !! j) /\
  (forall j column, column ∉ columns ->
     at_get df' j column = at_get df j column).

Definition profile_columns : list string :=
  ["Company Name"; "Jurisdiction"; "Type"; "Registered Office Address"].

Definition output_columns : list string :=
  ["Company Name"; "Jurisdiction"; "Type"; "Registered Office Address";
   "Directors"; "Charges"; "Insolvency"].

(** The four assignments of the empty-profile branch. *)
Definition no_result (df : list (gmap string string)) (index : nat)
  : list (gmap string string) :=
  let df := at_set df index "Company Name" "[No Result]" in
  let df := at_set df index "Jurisdiction" "[No Result]" in
  let df := at_set df index "Type" "[No Result]" in
  at_set df index "Registered Office Address" "[No Result]".

(** Whether a character occurs in a text. *)
Fixpoint occurs (c : ascii) (s : string) : bool :=
  match s with
  | EmptyString => false
  | String c' rest => Ascii.eqb c' c || occurs c rest
  end.

(** The Directors cell: every name followed by the separator. *)
Definition directors_text (names : list string) : string :=
  fold_right (fun name text => (name ++ " | ") ++ text) "" names.

(** Every field followed by a line feed. *)
Definition lines (fields : list string) : string :=
  fold_right (fun field text => (field ++ nl) ++ text) "" fields.

(** The block of one charge in the Charges cell: its number, then each
    field on a line, then an empty line. *)
Definition charge_block (chargeIndex : nat) (fields : list string) : string :=
  (pretty chargeIndex ++ (":" ++ nl)) ++ (lines fields ++ nl).

Fixpoint charges_text (chargeIndex : nat) (charges : list (list string))
  : string :=
  match charges with
  | [] => ""
  | charge :: rest =>
      charge_block chargeIndex charge ++ charges_text (S chargeIndex) rest
  end.

(** The columns a run with these flags can write. *)
Definition written_columns (config : flags) : list string :=
  profile_columns
  ++ (if getOfficers config then ["Directors"] else [])
  ++ (if getCharges config then ["Charges"] else [])
  ++ (if getInsolvency config then ["Insolvency"] else []).

(** A row that gets a turn of the loop with a profile request. *)
Definition has_number (row : gmap string string) : bool :=
  negb (String.eqb (cell_str (row !! "Company Number")) "nan").

(** The final state of a computation is related to its first by [R],
    whether it returns or raises. *)
Definition always {A} (R : state -> state -> Prop) (c : M A) : Prop :=
  forall st, R st (snd (c st)).

(** At most [n] more requests are in the log. *)
Definition sends_at_most (n : nat) (st st' : state) : Prop :=
  (length (requests st') <= length (requests st) + n)%nat.

(** The log is well spaced and its latest entry is the stamped one. *)
Definition paced (interval : Z) (st : state) : Prop :=
  stamped st /\ well_spaced interval (map fst (requests st)).

(** The frame a run returned, and the empty frame when it raised. *)
Definition frame_or_empty (o : outcome (list (gmap string string)))
  : list (gmap string string) :=
  match o with
  | Ok df => df
  | Raise _ => []
  end.

(** ** Sample inputs *)

Definition sample_repr (v : json) : string :=
  match v with
  | JNull => "None"
  | JBool true => "True"
  | JBool false => "False"
  | JInt z => pretty z
  | JFloat text => text
  | _ => ""
  end.

Definition sample_profile : json :=
  JObj [("company_name", JStr "ACME LTD");
        ("jurisdiction", JStr "england-wales");
        ("type", JStr "ltd");
        ("registered_office_address",
           JObj [("address_line_1", JStr "1 Main St"); ("locality", JStr "London")]);
        ("has_insolvency_history", JBool true);
        ("links", JObj [("self", JStr "/company/00445790");
                        ("charges", JStr "/company/00445790/charges")])].

(** A profile whose address has no first line and whose links name no
    sub-resource. *)
Definition bare_profile : json :=
  JObj [("company_name", JStr "BARE LTD");
        ("jurisdiction", JStr "scotland");
        ("type", JStr "plc");
        ("registered_office_address", JObj [("locality", JStr "London")]);
        ("has_insolvency_history", JBool true);
        ("links", JObj [("self", JStr "/company/SC000001")])].

Definition sample_charge (status : string) (persons : list json)
    (particulars : list (string * json)) : json :=
  JObj [("classification", JObj [("description", JStr "A registered charge")]);
        ("created_on", JStr "2015-01-02");
        ("delivered_on", JStr "2015-01-09");
        ("status", JStr status);
        ("persons_entitled", JArr persons);
        ("particulars", JObj particulars)].

Definition sample_charges : json :=
  JObj [("items",
     JArr [sample_charge "fully-satisfied" [JObj [("name", JStr "Bank A")]] [];
           sample_charge "outstanding"
             [JObj [("name", JStr "Bank B")]; JObj [("name", JStr "Bank C")]]
             [("description", JStr "All that freehold land")];
           sample_charge "part-satisfied" [JObj [("name", JStr "Bank D")]]
             [("type", JStr "short-particulars")]])].

Definition sample_officers : json :=
  JObj [("items",
     JArr [JObj [("name", JStr "DOE, Jane"); ("officer_role", JStr "director")];
           JObj [("name", JStr "ROE, Richard"); ("officer_role", JStr "secretary")];
           JObj [("name", JStr "POE, Edgar"); ("officer_role", JStr "director")]])].

Definition sample_search : json :=
  JObj [("items", JArr [JObj [("title", JStr "ACME LTD")]; JObj [("title", JStr "ACME 2 LTD")]])].

Definition paging : string := "?items_per_page=200?start_index=0".

Definition sample_registry (n : nat) (key url : string) : http_reply :=
  if String.eqb url (company_url ++ "00445790") then Reply 200 (Some sample_profile)
  else if String.eqb url (company_url ++ "SC000001") then Reply 200 (Some bare_profile)
  else if String.eqb url (root_url ++ ("/company/00445790/charges" ++ paging))
  then Reply 200 (Some sample_charges)
  else if String.eqb url (root_url ++ ("/company/00445790/officers" ++ paging))
  then Reply 200 (Some sample_officers)
  else if String.eqb url (search_url ++ "acme") then Reply 200 (Some sample_search)
  else Reply 404 None.

Definition sample_env : environment :=
  {| registry := sample_registry; latency := fun _ => 1; py_repr := sample_repr |}.

(** A registry that is down: every request is answered with status 503. *)
Definition offline_env : environment :=
  {| registry := fun _ _ _ => Reply 503 None;
     latency := fun _ => 1; py_repr := sample_repr |}.

(** A network that drops the first request sent. *)
Definition lossy_env : environment :=
  {| registry := fun n key url =>
       if (n =? 0)%nat then Failed else sample_registry n key url;
     latency := fun _ => 1; py_repr := sample_repr |}.

Definition sample_service : CompaniesHouseService :=
  {| key := "key"; time_between_requests := default_time_between_requests |}.

Definition all_flags : flags :=
  {| getOfficers := true; getCharges := true; getInsolvency := true |}.

Definition sample_frame : list (gmap string string) :=
  [ {[ "Company Number" := "00445790" ]};
    (∅ : gmap string string);
    {[ "Company Number" := "000" ]};
    {[ "Company Number" := "SC000001" ]} ].


(** * Properties *)

(** ** Running the monads *)

Lemma bind_ok {A B} (c : M A) (k : A -> M B) st b st' :
  bind c k st = (Ok b, st') ->
  exists a st1, c st = (Ok a, st1) /\ k a st1 = (Ok b, st').
Proof.
  unfold bind. destruct (c st) as [[a | e] st1]; intros H.
  - exists a, st1. split; [reflexivity | exact H].
  - discriminate H.
Qed.

Lemma bind_run {A B} (c : M A) (k : A -> M B) st a st1 :
  c st = (Ok a, st1) -> bind c k st = k a st1.
Proof. intros H. unfold bind. rewrite H. reflexivity. Qed.

Lemma lift_ok {A} (o : outcome A) st a st' :
  lift o st = (Ok a, st') -> o = Ok a /\ st' = st.
Proof. unfold lift. intros H. injection H as -> ->. split; reflexivity. Qed.

Lemma ret_ok {A} (x : A) st a st' :
  ret x st = (Ok a, st') -> a = x /\ st' = st.
Proof. unfold ret. intros H. injection H as -> ->. split; reflexivity. Qed.

Lemma obind_ok {A B} (o : outcome A) (k : A -> outcome B) b :
  obind o k = Ok b -> exists a, o = Ok a /\ k a = Ok b.
Proof.
  destruct o as [a | e]; simpl; intros H; [eauto | discriminate H].
Qed.

(** Take apart a hypothesis that says a computation returned. *)
Ltac returned :=
  repeat match goal with
    | H : bind _ _ _ = (Ok _, _) |- _ =>
        apply bind_ok in H; destruct H as (? & ? & ? & H)
    | H : lift _ _ = (Ok _, _) |- _ =>
        apply lift_ok in H; destruct H as [H ?]; subst
    | H : ret _ _ = (Ok _, _) |- _ =>
        apply ret_ok in H; destruct H as [? ?]; subst
    | H : obind _ _ = Ok _ |- _ =>
        apply obind_ok in H; destruct H as (? & ? & H)
    | H : Ok _ = Ok _ |- _ => injection H as H; subst
    | H : raise _ _ = (Ok _, _) |- _ => discriminate H
    | H : Raise _ = Ok _ |- _ => discriminate H
    end.

(** ** The rate limiter *)

Section RateLimiter.

Variable E : environment.
Variable self : CompaniesHouseService.

Lemma rate_limiting_returns st :
  fst (_rate_limiting E self st) = Ok tt /\
  requests (snd (_rate_limiting E self st)) = requests st.
Proof.
  unfold _rate_limiting, bind, get_last_request_timestamp.
  destruct (last_request_timestamp st); simpl; split; reflexivity.
Qed.

Lemma rate_limiting_refresh st :
  last_request_timestamp (snd (_rate_limiting E self st))
  = Some (clock (snd (_rate_limiting E self st))).
Proof.
  unfold _rate_limiting, bind, get_last_request_timestamp.
  destruct (last_request_timestamp st); reflexivity.
Qed.

Lemma rate_limiting_first st :
  last_request_timestamp st = None ->
  sleeps (snd (_rate_limiting E self st)) = sleeps st.
Proof.
  intros H. unfold _rate_limiting, bind, get_last_request_timestamp.
  rewrite H. reflexivity.
Qed.

Lemma rate_limiting_gap st t :
  (forall n, 0 <= latency E n) ->
  last_request_timestamp st = Some t ->
  t + time_between_requests self <= clock (snd (_rate_limiting E self st)).
Proof.
  intros Hpos H. unfold _rate_limiting, bind, get_last_request_timestamp.
  rewrite H. simpl.
  pose proof (Hpos (ticks st)). pose proof (Hpos (S (ticks st))).
  pose proof (Hpos (S (S (ticks st)))). lia.
Qed.

(** A request leaves at the instant the limiter has just recorded. *)
Lemma query_request st url query :
  let st' := snd (_query_ch_api E self url query st) in
  let released := snd (_rate_limiting E self st) in
  requests st' = (clock released, format url query) :: requests st /\
  last_request_timestamp st' = Some (clock released).
Proof.
  simpl. unfold _query_ch_api, bind.
  pose proof (rate_limiting_returns st) as [Hok Hreq].
  pose proof (rate_limiting_refresh st) as Hlast.
  destruct (_rate_limiting E self st) as [r released]. simpl in *. subst r.
  unfold requests_get.
  destruct (registry E _ _ _) as [code body |]; simpl.
  - rewrite Hreq.
    destruct (code =? 200); [destruct body |]; simpl; auto.
  - rewrite Hreq. auto.
Qed.

Lemma query_spaced st url query :
  (forall n, 0 <= latency E n) ->
  stamped st ->
  well_spaced (time_between_requests self) (map fst (requests st)) ->
  let st' := snd (_query_ch_api E self url query st) in
  stamped st' /\
  well_spaced (time_between_requests self) (map fst (requests st')).
Proof.
  intros Hpos Hst Hsp. simpl.
  destruct (query_request st url query) as [Hreq Hlast].
  unfold stamped. rewrite Hreq, Hlast. split; [reflexivity |].
  simpl. unfold stamped in Hst.
  destruct (requests st) as [| [t u] older]; simpl; [exact I |].
  split; [| exact Hsp].
  apply rate_limiting_gap; assumption.
Qed.

Lemma query_all_spaced calls : forall st,
  (forall n, 0 <= latency E n) ->
  stamped st ->
  well_spaced (time_between_requests self) (map fst (requests st)) ->
  well_spaced (time_between_requests self)
    (map fst (requests (query_all E self calls st))) /\
  length (requests (query_all E self calls st))
  = (length calls + length (requests st))%nat.
Proof.
  induction calls as [| [url query] rest IH]; intros st Hpos Hst Hsp; simpl.
  - split; [exact Hsp | reflexivity].
  - destruct (query_spaced st url query Hpos Hst Hsp) as [Hst' Hsp'].
    destruct (IH _ Hpos Hst' Hsp') as [H1 H2]. split; [exact H1 |].
    rewrite H2. destruct (query_request st url query) as [Hreq _].
    rewrite Hreq. simpl. lia.
Qed.

End RateLimiter.

(** C3. Under a clock that does not run backwards: the first call of a
    client never sleeps; every pass through the rate limiter leaves the
    last-request timestamp at the current time; every request leaves at
    that timestamp; and in any sequence of calls on a fresh client two
    consecutive requests leave at least [time_between_requests] apart. *)
Theorem rate_limiting_spacing (E : environment) (self : CompaniesHouseService) :
  (forall n, 0 <= latency E n) ->
  (forall st, last_request_timestamp st = None ->
     sleeps (snd (_rate_limiting E self st)) = sleeps st) /\
  (forall st, last_request_timestamp (snd (_rate_limiting E self st))
     = Some (clock (snd (_rate_limiting E self st)))) /\
  (forall st url query,
     let st' := snd (_query_ch_api E self url query st) in
     exists t, head (requests st') = Some (t, format url query) /\
               last_request_timestamp st' = Some t) /\
  (forall t0 calls,
     let st' := query_all E self calls (fresh t0) in
     well_spaced (time_between_requests self) (map fst (requests st')) /\
     length (requests st') = length calls).
Proof.
  intros Hpos. repeat split.
  - intros st H. apply rate_limiting_first, H.
  - intros st. apply rate_limiting_refresh.
  - intros st url query. simpl.
    destruct (query_request E self st url query) as [Hreq Hlast].
    eexists. rewrite Hreq, Hlast. split; reflexivity.
  - apply (query_all_spaced E self calls (fresh t0) Hpos); simpl; exact I.
  - destruct (query_all_spaced E self calls (fresh t0) Hpos) as [_ H];
      simpl; try exact I.
    rewrite H. simpl. lia.
Qed.

Lemma rate_limiting_spacing_witness :
  sleeps (snd (_rate_limiting sample_env sample_service (fresh 0))) = [] /\
  well_spaced 600000
    (map fst (requests (query_all sample_env sample_service
       [(company_url, "00445790"); (company_url, "000"); (search_url, "acme")]
       (fresh 0)))).
Proof.
  assert (Hpos : forall n, 0 <= latency sample_env n) by (intros n; simpl; lia).
  destruct (rate_limiting_spacing sample_env sample_service Hpos)
    as (Hfirst & _ & _ & Hall).
  split.
  - apply (Hfirst (fresh 0)). reflexivity.
  - apply (Hall 0 [(company_url, "00445790"); (company_url, "000"); (search_url, "acme")]).
Defined.

(** ** Directors *)


Lemma traverse_length {A B} (f : A -> outcome B) l : forall ys,
  traverse f l = Ok ys -> Forall2 (fun x y => f x = Ok y) l ys.
Proof.
  induction l as [| x rest IH]; intros ys H; simpl in H.
  - injection H as <-. constructor.
  - destruct (f x) as [y | e] eqn:Hx; simpl in H; [| discriminate H].
    destruct (traverse f rest) as [ys' | e]; simpl in H; [| discriminate H].
    injection H as <-. constructor; [exact Hx | apply IH; reflexivity].
Qed.

(** What [_query_ch_api] hands back for a reply with status 200 and a
    JSON body. *)
Lemma query_success E self url query st body :
  registry E (length (requests st)) (key self) (format url query)
  = Reply 200 (Some body) ->
  fst (_query_ch_api E self url query st) = Ok body.
Proof.
  intros Hreply. unfold _query_ch_api, bind.
  pose proof (rate_limiting_returns E self st) as [Hok Hreq].
  destruct (_rate_limiting E self st) as [r released]. simpl in *. subst r.
  unfold requests_get. rewrite Hreq, Hreply. reflexivity.
Qed.

Lemma query_failure E self url query st code body :
  registry E (length (requests st)) (key self) (format url query)
  = Reply code body ->
  code <> 200 ->
  fst (_query_ch_api E self url query st) = Ok (JObj []).
Proof.
  intros Hreply Hcode. unfold _query_ch_api, bind.
  pose proof (rate_limiting_returns E self st) as [Hok Hreq].
  destruct (_rate_limiting E self st) as [r released]. simpl in *. subst r.
  unfold requests_get. rewrite Hreq, Hreply. simpl.
  destruct (Z.eqb_spec code 200) as [-> | _]; [contradiction | reflexivity].
Qed.



(** ** Charges *)

Lemma count_loop_filter charges_list : forall requiredLength,
  Forall (has_key "status") charges_list ->
  count_loop charges_list requiredLength
  = Ok (requiredLength + length (List.filter unsatisfied charges_list))%nat.
Proof.
  induction charges_list as [| charge rest IH]; intros n Hall; simpl.
  - f_equal. lia.
  - inversion Hall as [| ? ? [status Hstatus] Hrest]; subst.
    unfold unsatisfied at 1. rewrite Hstatus. simpl.
    destruct (negb (is_str "fully-satisfied" status)); simpl.
    + rewrite IH by assumption. f_equal. lia.
    + apply IH. assumption.
Qed.

Lemma set_cell_insert (table : list (list string)) index column text row :
  (index < length table)%nat ->
  (column < length row)%nat ->
  set_cell (<[index := row]> table) index column text
  = Ok (<[index := <[column := text]> row]> table).
Proof.
  intros Hi Hc. unfold set_cell.
  rewrite list_lookup_insert_eq by exact Hi.
  destruct (decide (column < length row)%nat) as [_ | Hno]; [| contradiction].
  rewrite list_insert_insert_eq. reflexivity.
Qed.

(** The six assignments of the source fill the row with the six fields. *)
Lemma fill_row_fields charge index table row :
  table !! index = Some row ->
  length row = 6%nat ->
  fill_row charge index table
  = try! fields <- charge_fields charge; Ok (<[index := fields]> table).
Proof.
  intros Hrow Hlen.
  assert (Hi : (index < length table)%nat) by (eapply lookup_lt_Some; eassumption).
  rewrite <- (list_insert_id table index row Hrow) at 1.
  destruct row as [| c0 [| c1 [| c2 [| c3 [| c4 [| c5 [| ? ?]]]]]]];
    try discriminate Hlen.
  unfold fill_row, charge_fields.
  repeat first
    [ rewrite set_cell_insert by (rewrite ?length_insert; simpl; lia);
      cbn [obind]
    | match goal with
      | |- obind ?c _ = _ => destruct c eqn:?; cbn [obind]; try reflexivity
      | |- (if ?b then _ else _) = _ => destruct b; cbn [obind]
      end ].
  all: reflexivity.
Qed.

Lemma charge_fields_length charge fields :
  charge_fields charge = Ok fields -> length fields = 6%nat.
Proof.
  unfold charge_fields. intros H. returned. reflexivity.
Qed.

(** The second loop of the source, with its index and its [break], builds
    the rows of the surviving charges one after the other. *)
Lemma fill_loop_traverse charges_list : forall requiredLength index table,
  Forall (has_key "status") charges_list ->
  (index + length (List.filter unsatisfied charges_list))%nat = requiredLength ->
  length table = requiredLength ->
  Forall (fun row => length row = 6%nat) table ->
  fill_loop charges_list requiredLength index table
  = try! rows <- traverse charge_fields (List.filter unsatisfied charges_list);
    Ok (take index table ++ rows)%list.
Proof.
  induction charges_list as [| charge rest IH];
    intros n index table Hall Hcount Hlen Hrows.
  - simpl in *. rewrite app_nil_r, take_ge by lia. reflexivity.
  - apply Forall_cons in Hall as [[status Hstatus] Hrest].
    assert (Hu : unsatisfied charge = negb (is_str "fully-satisfied" status))
      by (unfold unsatisfied; rewrite Hstatus; reflexivity).
    cbn [fill_loop List.filter] in *. rewrite Hu in Hcount.
    rewrite Hu, Hstatus. cbn [obind].
    destruct (negb (is_str "fully-satisfied" status)); cbn [length] in Hcount.
    + assert (Hi : (index < length table)%nat) by lia.
      destruct (lookup_lt_is_Some_2 table index Hi) as [row Hrow].
      rewrite (fill_row_fields charge index table row Hrow)
        by (eapply (proj1 (Forall_lookup _ _) Hrows); eassumption).
      cbn [traverse].
      destruct (charge_fields charge) as [fields | e] eqn:Hfields;
        cbn [obind]; [| reflexivity].
      destruct (Nat.eqb_spec (S index) n) as [Hlast | Hmore].
      * destruct (List.filter unsatisfied rest) as [| ? ?] eqn:Hnone;
          [| cbn [length] in Hcount; lia].
        cbn [traverse obind]. rewrite insert_take_drop by exact Hi.
        rewrite drop_ge by lia. reflexivity.
      * rewrite IH; try assumption.
        -- destruct (traverse _ _) as [rows | e]; cbn [obind]; [| reflexivity].
           rewrite insert_take_drop by exact Hi.
           rewrite cons_middle, app_assoc.
           rewrite take_app_length'
             by (rewrite length_app, length_take; simpl; lia).
           rewrite <- app_assoc. reflexivity.
        -- lia.
        -- rewrite length_insert. lia.
        -- apply Forall_insert; [assumption |].
           eapply charge_fields_length; eassumption.
    + apply IH; assumption.
Qed.

(** C4. When the charges page is fetched and each of its items has a
    status, [get_company_charges] returns one row for each charge whose
    status is not ["fully-satisfied"], in the order of the page, and that
    row holds the fields of that charge. *)
Theorem get_company_charges_filter (E : environment)
    (self : CompaniesHouseService) (charges_path : string) (st : state)
    (charges items : json) (charges_list : list json) :
  registry E (length (requests st)) (key self)
    (format root_url (charges_path ++ "?items_per_page=200?start_index=0"))
  = Reply 200 (Some charges) ->
  getitem charges "items" = Ok items ->
  iterate items = Ok charges_list ->
  Forall (has_key "status") charges_list ->
  fst (get_company_charges E self charges_path st)
  = traverse charge_fields (List.filter unsatisfied charges_list) /\
  (forall rows,
     fst (get_company_charges E self charges_path st) = Ok rows ->
     Forall2 (fun charge row => charge_fields charge = Ok row)
       (List.filter unsatisfied charges_list) rows).
Proof.
  intros Hreply Hitems Hiter Hstatus.
  assert (Hrun : fst (get_company_charges E self charges_path st)
                 = traverse charge_fields (List.filter unsatisfied charges_list)).
  { pose proof (query_success E self root_url _ st charges Hreply) as Hq.
    unfold get_company_charges, bind, lift.
    destruct (_query_ch_api E self root_url _ st) as [r st1].
    simpl in Hq. subst r. rewrite Hitems, Hiter.
    rewrite count_loop_filter by assumption. simpl.
    rewrite fill_loop_traverse; try assumption.
    - destruct (traverse _ _); reflexivity.
    - reflexivity.
    - apply length_replicate.
    - apply Forall_replicate. reflexivity. }
  split; [exact Hrun |].
  intros rows Hrows. apply traverse_length. rewrite <- Hrun. exact Hrows.
Qed.

Lemma get_company_charges_filter_witness :
  exists outstanding part_satisfied,
    fst (get_company_charges sample_env sample_service
           "/company/00445790/charges" (fresh 0))
    = Ok [outstanding; part_satisfied] /\
    outstanding !! 3%nat = Some "Status: outstanding" /\
    part_satisfied !! 3%nat = Some "Status: part-satisfied".
Proof.
  destruct (get_company_charges_filter sample_env sample_service
              "/company/00445790/charges" (fresh 0) sample_charges
              (JArr [sample_charge "fully-satisfied" [JObj [("name", JStr "Bank A")]] [];
                     sample_charge "outstanding"
                       [JObj [("name", JStr "Bank B")]; JObj [("name", JStr "Bank C")]]
                       [("description", JStr "All that freehold land")];
                     sample_charge "part-satisfied" [JObj [("name", JStr "Bank D")]]
                       [("type", JStr "short-particulars")]])
              [sample_charge "fully-satisfied" [JObj [("name", JStr "Bank A")]] [];
               sample_charge "outstanding"
                 [JObj [("name", JStr "Bank B")]; JObj [("name", JStr "Bank C")]]
                 [("description", JStr "All that freehold land")];
               sample_charge "part-satisfied" [JObj [("name", JStr "Bank D")]]
                 [("type", JStr "short-particulars")]])
    as [H _].
  - reflexivity.
  - reflexivity.
  - reflexivity.
  - repeat constructor; eexists; reflexivity.
  - rewrite H. do 2 eexists. split; [reflexivity |]. split; reflexivity.
Defined.



(** ** The data frame *)

Lemma touches_refl columns index df : touches columns index df df.
Proof. repeat split. Qed.

Lemma touches_trans columns index df1 df2 df3 :
  touches columns index df1 df2 -> touches columns index df2 df3 ->
  touches columns index df1 df3.
Proof.
  intros (Hl1 & Ho1 & Hc1) (Hl2 & Ho2 & Hc2). repeat split.
  - congruence.
  - intros j Hj. rewrite Ho2, Ho1 by exact Hj. reflexivity.
  - intros j column Hc. rewrite Hc2, Hc1 by exact Hc. reflexivity.
Qed.

Lemma touches_subseteq columns columns' index df df' :
  columns ⊆ columns' -> touches columns index df df' ->
  touches columns' index df df'.
Proof.
  intros Hsub (Hl & Ho & Hc). repeat split; [exact Hl | exact Ho |].
  intros j column Hnot. apply Hc. intros Hin. apply Hnot, Hsub, Hin.
Qed.

Lemma at_get_at_set_other df index column text j column' :
  column' <> column ->
  at_get (at_set df index column text) j column' = at_get df j column'.
Proof.
  intros Hne. unfold at_get, at_set.
  destruct (decide (j = index)) as [-> | Hj].
  - rewrite list_lookup_alter_eq. destruct (df !! index) as [row |]; simpl.
    + apply lookup_insert_ne. congruence.
    + reflexivity.
  - rewrite list_lookup_alter_ne by congruence. reflexivity.
Qed.

Lemma at_get_at_set df index column text row :
  df !! index = Some row ->
  at_get (at_set df index column text) index column = Some text.
Proof.
  intros Hrow. unfold at_get, at_set.
  rewrite list_lookup_alter_eq, Hrow. simpl. apply lookup_insert_eq.
Qed.

Lemma at_set_touches columns index df column text :
  column ∈ columns -> touches columns index df (at_set df index column text).
Proof.
  intros Hin. repeat split.
  - apply length_alter.
  - intros j Hj. apply list_lookup_alter_ne. congruence.
  - intros j column' Hnot. apply at_get_at_set_other.
    intros ->. contradiction.
Qed.

Lemma at_iadd_touches columns index df column text df' :
  at_iadd df index column text = Ok df' ->
  column ∈ columns -> touches columns index df df'.
Proof.
  unfold at_iadd. destruct (at_get df index column); intros H Hin.
  - injection H as <-. apply at_set_touches, Hin.
  - discriminate H.
Qed.

(** Membership in a list of column titles that is written out. *)
Ltac listed :=
  match goal with
  | |- _ ⊆ _ =>
      let x := fresh "x" in
      let Hx := fresh "Hx" in
      intros x Hx;
      repeat (apply elem_of_cons in Hx as [-> | Hx]; [repeat constructor |]);
      inversion Hx
  | |- _ ∈ _ => repeat constructor
  end.

Lemma profile_columns_output : profile_columns ⊆ output_columns.
Proof. unfold profile_columns, output_columns. listed. Qed.

Lemma directors_output : ["Directors"] ⊆ output_columns.
Proof. unfold output_columns. listed. Qed.

Lemma charges_output : ["Charges"] ⊆ output_columns.
Proof. unfold output_columns. listed. Qed.

Lemma insolvency_output : ["Insolvency"] ⊆ output_columns.
Proof. unfold output_columns. listed. Qed.

Section ReaderProperties.

Variable E : environment.
Variable api : CompaniesHouseService.
Variable config : flags.

Lemma address_component_touches columns profile index component separator df df' :
  address_component E profile index component separator df = Ok df' ->
  "Registered Office Address" ∈ columns -> touches columns index df df'.
Proof.
  unfold address_component. intros H Hin. returned.
  destruct x0.
  - returned. eapply at_iadd_touches; eassumption.
  - returned. apply touches_refl.
Qed.

Lemma profile_fields_touches profile index df df' :
  profile_fields E profile index df = Ok df' ->
  touches profile_columns index df df'.
Proof.
  unfold profile_fields. intros H. returned.
  repeat match goal with
    | H : address_component _ _ _ _ _ _ = Ok _ |- _ =>
        apply (address_component_touches profile_columns) in H;
        [| unfold profile_columns; listed]
    end.
  repeat (eapply touches_trans; [| eassumption]).
  repeat (eapply touches_trans;
          [| apply at_set_touches; unfold profile_columns; listed]).
  apply touches_refl.
Qed.

Lemma officers_step_touches profile index df st reached st' :
  officers_step E api config profile index df st = (Ok reached, st') ->
  touches ["Directors"] index df (frame_of reached).
Proof.
  unfold officers_step. intros H.
  destruct (getOfficers config); [| returned; apply touches_refl].
  returned. destruct (negb x1); returned; simpl;
    apply at_set_touches; listed.
Qed.

Lemma charges_step_touches profile index df st reached st' :
  charges_step E api config profile index df st = (Ok reached, st') ->
  touches ["Charges"] index df (frame_of reached).
Proof.
  unfold charges_step. intros H.
  destruct (getCharges config); [| returned; apply touches_refl].
  returned. destruct (negb x1); returned; simpl;
    apply at_set_touches; listed.
Qed.

Lemma insolvency_step_touches profile index df st reached st' :
  insolvency_step config profile index df st = (Ok reached, st') ->
  touches ["Insolvency"] index df (frame_of reached).
Proof.
  unfold insolvency_step. intros H.
  destruct (getInsolvency config); [| returned; apply touches_refl].
  returned. destruct (negb x1); returned; simpl.
  - apply at_set_touches; listed.
  - apply touches_refl.
Qed.

Lemma and_then_touches columns index previous step df st reached st' :
  (forall st0 r st1, previous st0 = (Ok r, st1) ->
     touches columns index df (frame_of r)) ->
  (forall df0 st0 r st1, step df0 st0 = (Ok r, st1) ->
     touches columns index df0 (frame_of r)) ->
  and_then previous step st = (Ok reached, st') ->
  touches columns index df (frame_of reached).
Proof.
  intros Hprev Hstep H. unfold and_then in H. returned.
  destruct x as [df1 | df1].
  - returned. eapply Hprev; eassumption.
  - eapply touches_trans; [eapply (Hprev _ (Next df1)); eassumption |].
    eapply Hstep; eassumption.
Qed.

Lemma loop_body_blank index row df st :
  is_blank row -> loop_body E api config index row df st = (Ok df, st).
Proof.
  unfold is_blank, loop_body. intros ->. reflexivity.
Qed.

Lemma loop_body_touches index row df st df' st' :
  loop_body E api config index row df st = (Ok df', st') ->
  touches output_columns index df df'.
Proof.
  unfold loop_body. intros H.
  destruct (String.eqb _ "nan"); [returned; apply touches_refl |].
  returned. destruct (is_empty_dict x).
  - returned.
    repeat (eapply touches_trans;
            [| apply at_set_touches; unfold output_columns; listed]).
    apply touches_refl.
  - returned.
    eapply touches_trans.
    { eapply touches_subseteq; [apply profile_columns_output |].
      eapply profile_fields_touches; eassumption. }
    eapply and_then_touches; [| | eassumption].
    + intros st0 r st3 H3.
      eapply and_then_touches; [| | exact H3].
      * intros st4 r4 st5 H5.
        eapply and_then_touches; [| | exact H5].
        -- intros st6 r6 st7 H7. eapply touches_subseteq;
             [apply directors_output | eapply officers_step_touches; exact H7].
        -- intros df0 st6 r6 st7 H7. eapply touches_subseteq;
             [apply charges_output | eapply charges_step_touches; exact H7].
      * intros df0 st4 r4 st5 H5. eapply touches_subseteq;
          [apply insolvency_output | eapply insolvency_step_touches; exact H5].
    + intros df0 st0 r st3 H3. cbv beta in H3. returned. apply touches_refl.
Qed.

End ReaderProperties.

(** ** The loop over the rows *)

Lemma not_output_column : "Company Number" ∉ output_columns.
Proof.
  unfold output_columns. intros H.
  repeat (apply elem_of_cons in H as [H | H]; [discriminate H |]).
  inversion H.
Qed.

Lemma rows_loop_frame E api config rows : forall index df st out st',
  rows_loop E api config index rows df st = (Ok out, st') ->
  length out = length df /\
  (forall j column, column ∉ output_columns ->
     at_get out j column = at_get df j column) /\
  (forall j,
     (j < index)%nat \/ (index + length rows <= j)%nat \/
     (exists k row, j = (index + k)%nat /\ rows !! k = Some row /\ is_blank row) ->
     out !! j = df !! j).
Proof.
  induction rows as [| row rest IH]; intros index df st out st' H; simpl in H.
  - returned. repeat split.
  - returned.
    match goal with
    | Hb : loop_body _ _ _ _ _ _ _ = (Ok ?df1, _) |- _ =>
        pose proof (loop_body_touches _ _ _ _ _ _ _ _ _ Hb) as (Hl & Ho & Hc);
        rename Hb into Hbody
    end.
    destruct (IH _ _ _ _ _ H) as (IHl & IHc & IHo).
    split; [congruence |]. split.
    + intros j column Hnot. rewrite IHc, Hc by exact Hnot. reflexivity.
    + intros j [Hj | [Hj | (k & row' & -> & Hk & Hblank)]].
      * rewrite IHo by (left; lia). apply Ho. lia.
      * simpl in Hj. rewrite IHo by (right; left; lia). apply Ho. lia.
      * destruct k as [| k]; simpl in Hk.
        -- injection Hk as ->.
           rewrite (loop_body_blank E api config index row' df st Hblank) in Hbody.
           injection Hbody as -> ->.
           apply IHo. left. lia.
        -- rewrite IHo.
           ++ apply Ho. lia.
           ++ right; right. exists k, row'. split; [lia | split; assumption].
Qed.

(** C1, as the code has it. When the run over a frame of N rows ends, the
    frame still has N rows with the company numbers where they were; a row
    whose company number is blank is left exactly as it was, and its turn
    of the loop neither raises nor calls the client: frame, instance and
    request log stay as they are. *)
Theorem fetch_all_rows (E : environment) (api : CompaniesHouseService)
    (config : flags) (df out : list (gmap string string)) (st st' : state) :
  fetch_all E api config df st = (Ok out, st') ->
  length out = length df /\
  (forall j, at_get out j "Company Number" = at_get df j "Company Number") /\
  (forall i row, df !! i = Some row -> is_blank row ->
     out !! i = Some row /\
     forall df1 st1, loop_body E api config i row df1 st1 = (Ok df1, st1)).
Proof.
  unfold fetch_all. intros H.
  destruct (rows_loop_frame _ _ _ _ _ _ _ _ _ H) as (Hl & Hc & Ho).
  split; [exact Hl |]. split.
  - intros j. apply Hc, not_output_column.
  - intros i row Hrow Hblank. split.
    + rewrite Ho; [exact Hrow |].
      right; right. exists i, row. split; [reflexivity | split; assumption].
    + intros df1 st1. apply loop_body_blank, Hblank.
Qed.

Lemma fetch_all_rows_witness :
  exists out st',
    fetch_all sample_env sample_service all_flags sample_frame (fresh 0)
    = (Ok out, st') /\
    length out = 4%nat /\ out !! 1%nat = Some ∅.
Proof.
  destruct (fetch_all sample_env sample_service all_flags sample_frame (fresh 0))
    as [[out | e] st'] eqn:Hrun; [| vm_compute in Hrun; discriminate Hrun].
  exists out, st'. split; [reflexivity |].
  destruct (fetch_all_rows sample_env sample_service all_flags sample_frame
              out (fresh 0) st' Hrun) as (Hl & _ & Hblank).
  split; [exact Hl |].
  apply (Hblank 1%nat ∅); reflexivity.
Defined.

(** C1 as it is stated fails: the row of a blank company number holds no
    ["[No Result]"] marker after the run. *)
Lemma blank_row_not_sentinel :
  fetch_all sample_env sample_service all_flags [∅] (fresh 0)
  = (Ok [∅], fresh 0) /\
  ~ profile_sentinel ∅.
Proof.
  split; [reflexivity |].
  intros [H _]. rewrite lookup_empty in H. discriminate H.
Qed.

(** ** Profiles that are empty *)

Lemma loop_body_empty_profile E api config index row df st profile st1 :
  ~ is_blank row ->
  get_company_profile E api (cell_str (row !! "Company Number")) st
  = (Ok profile, st1) ->
  is_empty_dict profile = true ->
  loop_body E api config index row df st
  = (Ok (no_result df index), st1).
Proof.
  intros Hrow Hprofile Hempty. unfold loop_body, is_blank in *.
  destruct (String.eqb_spec (cell_str (row !! "Company Number")) "nan")
    as [Hnan | _]; [contradiction |].
  rewrite (bind_run _ _ _ _ _ Hprofile), Hempty. reflexivity.
Qed.

Lemma no_result_row (df : list (gmap string string)) index row :
  df !! index = Some row ->
  exists row',
    no_result df index !! index = Some row' /\
    profile_sentinel row'.
Proof.
  intros Hrow. unfold no_result, at_set.
  rewrite !list_lookup_alter_eq, Hrow. simpl. eexists. split; [reflexivity |].
  unfold profile_sentinel.
  repeat split; repeat (rewrite lookup_insert_ne by discriminate);
    apply lookup_insert_eq.
Qed.

(** C2. A reply whose status is not 200 makes [get_company_profile] return
    the empty dict; and a row whose profile came back as the empty dict
    gets ["[No Result]"] in its four profile columns, after which the loop
    goes on with the next row. *)
Theorem empty_profile_no_result (E : environment)
    (api : CompaniesHouseService) (config : flags) :
  (forall st company_number code body,
     registry E (length (requests st)) (key api)
       (format company_url company_number) = Reply code body ->
     code <> 200 ->
     fst (get_company_profile E api company_number st) = Ok (JObj [])) /\
  (forall index row rest df st st1,
     ~ is_blank row ->
     get_company_profile E api (cell_str (row !! "Company Number")) st
     = (Ok (JObj []), st1) ->
     let df' :=
       no_result df index in
     rows_loop E api config index (row :: rest) df st
     = rows_loop E api config (S index) rest df' st1 /\
     (forall old, df !! index = Some old ->
        exists new, df' !! index = Some new /\ profile_sentinel new)).
Proof.
  split.
  - intros st company_number code body Hreply Hcode.
    unfold get_company_profile. eapply query_failure; eassumption.
  - intros index row rest df st st1 Hrow Hprofile. simpl. split.
    + erewrite (bind_run (loop_body E api config index row df));
        [reflexivity |].
      eapply loop_body_empty_profile; [assumption | eassumption | reflexivity].
    + intros old Hold. eapply no_result_row, Hold.
Qed.

Lemma empty_profile_no_result_witness :
  fst (get_company_profile sample_env sample_service "000" (fresh 0))
  = Ok (JObj []) /\
  exists new,
    no_result [ {[ "Company Number" := "000" ]} ] 0 !! 0%nat = Some new /\
    profile_sentinel new.
Proof.
  destruct (empty_profile_no_result sample_env sample_service all_flags)
    as [Hfetch Hrow].
  split.
  - apply (Hfetch (fresh 0) "000" 404 None); [reflexivity | discriminate].
  - assert (Hrow0 : ~ is_blank {[ "Company Number" := "000" ]})
      by (unfold is_blank; vm_compute; discriminate).
    assert (Hget :
      get_company_profile sample_env sample_service
        (cell_str (({[ "Company Number" := "000" ]} : gmap string string)
                     !! "Company Number")) (fresh 0)
      = (Ok (JObj []),
         snd (get_company_profile sample_env sample_service "000" (fresh 0))))
      by (vm_compute; reflexivity).
    destruct (Hrow 0%nat {[ "Company Number" := "000" ]} []
                [ {[ "Company Number" := "000" ]} ] (fresh 0) _ Hrow0 Hget)
      as [_ Hsentinel].
    apply (Hsentinel {[ "Company Number" := "000" ]}). reflexivity.
Defined.

(** ** Rows whose profile lacks a link *)

Lemma profile_fields_name E profile index df df1 :
  profile_fields E profile index df = Ok df1 ->
  print_progress profile = Ok tt.
Proof.
  unfold profile_fields, print_progress. intros H.
  destruct (getitem profile "company_name"); [reflexivity | discriminate H].
Qed.

Lemma loop_body_profile E api config index row df st profile st1 df1 :
  ~ is_blank row ->
  get_company_profile E api (cell_str (row !! "Company Number")) st
  = (Ok profile, st1) ->
  is_empty_dict profile = false ->
  profile_fields E profile index df = Ok df1 ->
  loop_body E api config index row df st
  = bind
      (and_then
         (and_then
            (and_then (officers_step E api config profile index df1)
                      (charges_step E api config profile index))
            (insolvency_step config profile index))
         (fun df => lift (print_progress profile) ;; ret (Next df)))
      (fun reached => ret (frame_of reached)) st1.
Proof.
  intros Hrow Hprofile Hempty Hfields. unfold loop_body, is_blank in *.
  destruct (String.eqb_spec (cell_str (row !! "Company Number")) "nan")
    as [Hnan | _]; [contradiction |].
  rewrite (bind_run _ _ _ _ _ Hprofile), Hempty.
  unfold bind at 1, lift at 1. rewrite Hfields. reflexivity.
Qed.

(** C10. For a row with a profile: when directors are asked for and the
    links have no ["officers"] entry, the row gets ["[No Directors]"] and
    nothing more is done for it, so its Charges and Insolvency cells stay
    as they were whatever the other two flags say; and when the officers
    step went through, charges are asked for and the links have no
    ["charges"] entry, the row gets ["[No Charges]"] and its Insolvency
    cell stays as it was. *)
Theorem missing_link_skips_rest (E : environment)
    (api : CompaniesHouseService) (config : flags) (index : nat)
    (row : gmap string string) (df df1 : list (gmap string string))
    (st st1 : state) (profile links : json) :
  ~ is_blank row ->
  get_company_profile E api (cell_str (row !! "Company Number")) st
  = (Ok profile, st1) ->
  is_empty_dict profile = false ->
  profile_fields E profile index df = Ok df1 ->
  getitem profile "links" = Ok links ->
  (getOfficers config = true ->
   contains "officers" links = Ok false ->
   let out := at_set df1 index "Directors" "[No Directors]" in
   loop_body E api config index row df st = (Ok out, st1) /\
   at_get out index "Charges" = at_get df index "Charges" /\
   at_get out index "Insolvency" = at_get df index "Insolvency") /\
  (forall df2 st2,
   officers_step E api config profile index df1 st1 = (Ok (Next df2), st2) ->
   getCharges config = true ->
   contains "charges" links = Ok false ->
   let out := at_set df2 index "Charges" "[No Charges]" in
   loop_body E api config index row df st = (Ok out, st2) /\
   at_get out index "Insolvency" = at_get df index "Insolvency").
Proof.
  intros Hrow Hprofile Hempty Hfields Hlinks.
  pose proof (profile_fields_name _ _ _ _ _ Hfields) as Hprint.
  pose proof (profile_fields_touches _ _ _ _ _ Hfields) as (_ & _ & Hkeep).
  rewrite (loop_body_profile _ _ _ _ _ _ _ _ _ _ Hrow Hprofile Hempty Hfields).
  split.
  - intros Hflag Hnone. simpl. split; [| split].
    + unfold bind, and_then, officers_step, bind, lift, ret.
      rewrite Hflag, Hlinks, Hnone, Hprint. reflexivity.
    + rewrite at_get_at_set_other by discriminate.
      apply Hkeep. unfold profile_columns. intros H.
      repeat (apply elem_of_cons in H as [H | H]; [discriminate H |]).
      inversion H.
    + rewrite at_get_at_set_other by discriminate.
      apply Hkeep. unfold profile_columns. intros H.
      repeat (apply elem_of_cons in H as [H | H]; [discriminate H |]).
      inversion H.
  - intros df2 st2 Hofficers Hflag Hnone. simpl.
    pose proof (officers_step_touches _ _ _ _ _ _ _ _ _ Hofficers) as (_ & _ & Hkeep2).
    split.
    + unfold bind at 1, and_then at 1 2 3, bind at 1 2 3.
      rewrite Hofficers. unfold charges_step, bind, lift, ret.
      rewrite Hflag, Hlinks, Hnone, Hprint. reflexivity.
    + rewrite at_get_at_set_other by discriminate. simpl in Hkeep2.
      rewrite Hkeep2.
      * apply Hkeep. unfold profile_columns. intros H.
        repeat (apply elem_of_cons in H as [H | H]; [discriminate H |]).
        inversion H.
      * intros H.
        repeat (apply elem_of_cons in H as [H | H]; [discriminate H |]).
        inversion H.
Qed.

Lemma missing_link_skips_rest_witness :
  exists out st1,
    loop_body sample_env sample_service all_flags 0
      {[ "Company Number" := "SC000001" ]}
      [ {[ "Company Number" := "SC000001" ]} ] (fresh 0) = (Ok out, st1) /\
    at_get out 0 "Directors" = Some "[No Directors]" /\
    at_get out 0 "Charges" = None /\
    at_get out 0 "Insolvency" = None.
Proof.
  destruct (profile_fields sample_env bare_profile 0
              [ {[ "Company Number" := "SC000001" ]} ])
    as [df1 | e] eqn:Hfields; [| vm_compute in Hfields; discriminate Hfields].
  assert (Hrow0 : ~ is_blank {[ "Company Number" := "SC000001" ]})
    by (unfold is_blank; vm_compute; discriminate).
  assert (Hget :
    get_company_profile sample_env sample_service
      (cell_str (({[ "Company Number" := "SC000001" ]} : gmap string string)
                   !! "Company Number")) (fresh 0)
    = (Ok bare_profile,
       snd (get_company_profile sample_env sample_service "SC000001" (fresh 0))))
    by (vm_compute; reflexivity).
  destruct (missing_link_skips_rest sample_env sample_service all_flags 0
              {[ "Company Number" := "SC000001" ]}
              [ {[ "Company Number" := "SC000001" ]} ] df1 (fresh 0) _
              bare_profile (JObj [("self", JStr "/company/SC000001")])
              Hrow0 Hget eq_refl Hfields eq_refl) as [Hofficers _].
  destruct (Hofficers eq_refl eq_refl) as (Hrun & Hcharges & Hinsolvency).
  eexists. eexists. split; [exact Hrun |].
  split; [| split].
  - destruct (profile_fields_touches _ _ _ _ _ Hfields) as (Hlen & _ & _).
    destruct df1 as [| row1 rest]; [discriminate Hlen |].
    apply (at_get_at_set (row1 :: rest) 0 "Directors" "[No Directors]" row1).
    reflexivity.
  - rewrite Hcharges. reflexivity.
  - rewrite Hinsolvency. reflexivity.
Defined.

(** ** The first search result *)

Lemma get_first_company_search_items E self company_name st search_result items :
  registry E (length (requests st)) (key self) (format search_url company_name)
  = Reply 200 (Some search_result) ->
  getitem search_result "items" = Ok (JArr items) ->
  fst (get_first_company_search E self company_name st)
  = Ok (match items with first_result :: _ => first_result | [] => JNull end).
Proof.
  intros Hreply Hitems.
  pose proof (query_success E self search_url _ st search_result Hreply) as Hq.
  unfold get_first_company_search, bind.
  destruct (_query_ch_api E self search_url company_name st) as [r st1].
  simpl in Hq. subst r. rewrite Hitems. simpl.
  destruct items; reflexivity.
Qed.

Lemma get_first_company_search_failure E self company_name st code body :
  registry E (length (requests st)) (key self) (format search_url company_name)
  = Reply code body ->
  code <> 200 ->
  fst (get_first_company_search E self company_name st) = Raise KeyError.
Proof.
  intros Hreply Hcode.
  pose proof (query_failure E self search_url _ st code body Hreply Hcode) as Hq.
  unfold get_first_company_search, bind.
  destruct (_query_ch_api E self search_url company_name st) as [r st1].
  simpl in Hq. subst r. reflexivity.
Qed.

(** C8. On a search whose reply is not a success the result has no
    ["items"], and [get_first_company_search] raises [KeyError]: the
    [try] block catches [IndexError] only. *)
Theorem search_without_items_raises :
  fst (_query_ch_api sample_env sample_service search_url "zzz" (fresh 0))
  = Ok (JObj []) /\
  fst (get_first_company_search sample_env sample_service "zzz" (fresh 0))
  = Raise KeyError.
Proof. split; reflexivity. Qed.

(** ** The address *)

Lemma append_empty_r (s : string) : s ++ "" = s.
Proof.
  induction s as [| c s IH]; [reflexivity |].
  change (String c (s ++ "") = String c s). f_equal. exact IH.
Qed.

Lemma append_assoc (s1 s2 s3 : string) : (s1 ++ s2) ++ s3 = s1 ++ (s2 ++ s3).
Proof.
  induction s1 as [| c s1 IH]; [reflexivity |].
  change (String c ((s1 ++ s2) ++ s3) = String c (s1 ++ (s2 ++ s3))).
  f_equal. exact IH.
Qed.


Lemma address_component_text E profile address index component separator df old :
  getitem profile "registered_office_address" = Ok (JObj address) ->
  at_get df index "Registered Office Address" = Some old ->
  exists df',
    address_component E profile index component separator df = Ok df' /\
    at_get df' index "Registered Office Address"
    = Some (old ++ address_piece E address component separator).
Proof.
  intros Haddress Hold. unfold address_component, address_piece.
  rewrite Haddress. simpl.
  destruct (assoc component address) as [value |] eqn:Hvalue; simpl.
  - unfold at_iadd. rewrite Hold. eexists. split; [reflexivity |].
    unfold at_get in Hold.
    destruct (df !! index) as [row |] eqn:Hrow; [| discriminate Hold].
    eapply at_get_at_set, Hrow.
  - exists df. rewrite append_empty_r. split; [reflexivity | exact Hold].
Qed.

(** The address column of a profile with an address object holds the
    pieces of the six blocks, in their order. *)
Lemma profile_fields_address E profile address index df row name jurisdiction type :
  df !! index = Some row ->
  getitem profile "company_name" = Ok name ->
  getitem profile "jurisdiction" = Ok jurisdiction ->
  getitem profile "type" = Ok type ->
  getitem profile "registered_office_address" = Ok (JObj address) ->
  exists df',
    profile_fields E profile index df = Ok df' /\
    at_get df' index "Registered Office Address" = Some (address_text E address).
Proof.
  intros Hrow Hname Hjurisdiction Htype Haddress.
  unfold profile_fields. rewrite Hname, Hjurisdiction, Htype. cbn [obind].
  set (df0 := at_set _ index "Registered Office Address" "").
  assert (H0 : at_get df0 index "Registered Office Address" = Some "").
  { unfold df0, at_get, at_set. rewrite !list_lookup_alter_eq, Hrow. simpl.
    apply lookup_insert_eq. }
  destruct (address_component_text E profile address index "address_line_1" ""
              df0 _ Haddress H0) as (df1 & -> & H1). cbn [obind].
  destruct (address_component_text E profile address index "address_line_2" ", "
              df1 _ Haddress H1) as (df2 & -> & H2). cbn [obind].
  destruct (address_component_text E profile address index "locality" ", "
              df2 _ Haddress H2) as (df3 & -> & H3). cbn [obind].
  destruct (address_component_text E profile address index "region" ", "
              df3 _ Haddress H3) as (df4 & -> & H4). cbn [obind].
  destruct (address_component_text E profile address index "postal_code" ", "
              df4 _ Haddress H4) as (df5 & -> & H5). cbn [obind].
  destruct (address_component_text E profile address index "country" ", "
              df5 _ Haddress H5) as (df6 & -> & H6).
  exists df6. split; [reflexivity | exact H6].
Qed.



Example address_two_components :
  exists out,
    profile_fields sample_env sample_profile 0
      [ {[ "Company Number" := "00445790" ]} ] = Ok out /\
    at_get out 0 "Registered Office Address" = Some "1 Main St, London".
Proof. eexists. split; vm_compute; reflexivity. Qed.

(** C6. A profile whose address has a locality and no first line gets an
    address that starts with the separator. *)
Theorem address_without_first_line :
  getitem bare_profile "registered_office_address"
  = Ok (JObj [("locality", JStr "London")]) /\
  exists out,
    profile_fields sample_env bare_profile 0
      [ {[ "Company Number" := "SC000001" ]} ] = Ok out /\
    at_get out 0 "Registered Office Address" = Some ", London".
Proof.
  split; [reflexivity |]. eexists. split; vm_compute; reflexivity.
Qed.

(** ** The insolvency column *)

(** Whatever the profile says, the insolvency step writes the marker or
    nothing. *)
Lemma insolvency_step_marker_only config profile index df st reached st' :
  insolvency_step config profile index df st = (Ok reached, st') ->
  frame_of reached = df \/
  frame_of reached = at_set df index "Insolvency" "[No Insolvency Data]".
Proof.
  unfold insolvency_step. intros H.
  destruct (getInsolvency config); [| returned; left; reflexivity].
  returned. destruct (negb x1); returned; simpl; auto.
Qed.

(** With the links under the key the source looks for, the flag is read
    and its [print] raises; the column is not written. *)
Example insolvency_step_raises :
  fst (insolvency_step source_flags
         (JObj [("company_name", JStr "ACME LTD");
                ("has_insolvency_history", JBool true);
                ("links", JObj [("involvency", JStr "/company/1/insolvency")])])
         0 [∅] (fresh 0))
  = Raise TypeError.
Proof. reflexivity. Qed.

(** C7. A profile that says it has an insolvency history, read with the
    flags of the source, ends with the marker in the Insolvency column. *)
Theorem insolvency_flag_not_surfaced :
  getitem bare_profile "has_insolvency_history" = Ok (JBool true) /\
  exists out st',
    loop_body sample_env sample_service source_flags 0
      {[ "Company Number" := "SC000001" ]}
      [ {[ "Company Number" := "SC000001" ]} ] (fresh 0) = (Ok out, st') /\
    at_get out 0 "Insolvency" = Some "[No Insolvency Data]".
Proof.
  split; [reflexivity |]. eexists. eexists. split; vm_compute; reflexivity.
Qed.

(** * Further properties of the service *)

(** ** One request for each call *)

Lemma bind_lift_state {A B} (c : M A) (k : A -> outcome B) st :
  snd (bind c (fun a => lift (k a)) st) = snd (c st).
Proof.
  unfold bind, lift. destruct (c st) as [[a | e] st1]; reflexivity.
Qed.

Lemma get_company_profile_state E self company_number st :
  snd (get_company_profile E self company_number st)
  = snd (_query_ch_api E self company_url company_number st).
Proof. reflexivity. Qed.

Lemma get_first_company_search_state E self company_name st :
  snd (get_first_company_search E self company_name st)
  = snd (_query_ch_api E self search_url company_name st).
Proof.
  unfold get_first_company_search, bind.
  destruct (_query_ch_api E self search_url company_name st)
    as [[search_result | e] st1]; [| reflexivity].
  destruct (try! items <- getitem search_result "items"; getindex items 0)
    as [first_result | []]; reflexivity.
Qed.

Lemma get_company_directors_state E self officers_path st :
  snd (get_company_directors E self officers_path st)
  = snd (_query_ch_api E self root_url
           (officers_path ++ "?items_per_page=200?start_index=0") st).
Proof.
  unfold get_company_directors, bind, lift.
  destruct (_query_ch_api E self root_url _ st) as [[officers | e] st1];
    [| reflexivity].
  destruct (getitem officers "items") as [items | e]; [| reflexivity].
  destruct (iterate items) as [elements | e]; [| reflexivity].
  destruct (directors_loop elements []); reflexivity.
Qed.

Lemma get_company_charges_state E self charges_path st :
  snd (get_company_charges E self charges_path st)
  = snd (_query_ch_api E self root_url
           (charges_path ++ "?items_per_page=200?start_index=0") st).
Proof.
  unfold get_company_charges, bind, lift.
  destruct (_query_ch_api E self root_url _ st) as [[charges | e] st1];
    [| reflexivity].
  destruct (getitem charges "items") as [items | e]; [| reflexivity].
  destruct (iterate items) as [elements | e]; [| reflexivity].
  destruct (count_loop elements 0) as [n | e]; [| reflexivity].
  destruct (fill_loop elements n 0 _); reflexivity.
Qed.

(** X1. Each of the four public methods sends exactly one request,
    whether it returns or raises, and to the URL its template gives: the
    search and company URLs with the argument appended, and for directors
    and charges the root URL, the link and the fixed paging suffix. *)
Theorem one_request_per_call (E : environment) (self : CompaniesHouseService)
    (st : state) (argument : string) :
  (exists t, requests (snd (get_first_company_search E self argument st))
     = (t, "https://api.companieshouse.gov.uk/search/companies?q=" ++ argument)
       :: requests st) /\
  (exists t, requests (snd (get_company_profile E self argument st))
     = (t, "https://api.companieshouse.gov.uk/company/" ++ argument)
       :: requests st) /\
  (exists t, requests (snd (get_company_directors E self argument st))
     = (t, "https://api.companieshouse.gov.uk"
           ++ (argument ++ "?items_per_page=200?start_index=0"))
       :: requests st) /\
  (exists t, requests (snd (get_company_charges E self argument st))
     = (t, "https://api.companieshouse.gov.uk"
           ++ (argument ++ "?items_per_page=200?start_index=0"))
       :: requests st).
Proof.
  rewrite get_first_company_search_state, get_company_profile_state,
    get_company_directors_state, get_company_charges_state.
  repeat split; eexists; apply query_request.
Qed.

(** ** What the query raises *)

Lemma query_transport_failure E self url query st :
  registry E (length (requests st)) (key self) (format url query) = Failed ->
  fst (_query_ch_api E self url query st) = Raise RequestException.
Proof.
  intros Hreply. unfold _query_ch_api, bind.
  pose proof (rate_limiting_returns E self st) as [Hok Hreq].
  destruct (_rate_limiting E self st) as [r released]. simpl in *. subst r.
  unfold requests_get. rewrite Hreq, Hreply. reflexivity.
Qed.

Lemma query_undecodable E self url query st :
  registry E (length (requests st)) (key self) (format url query)
  = Reply 200 None ->
  fst (_query_ch_api E self url query st) = Raise JSONDecodeError.
Proof.
  intros Hreply. unfold _query_ch_api, bind.
  pose proof (rate_limiting_returns E self st) as [Hok Hreq].
  destruct (_rate_limiting E self st) as [r released]. simpl in *. subst r.
  unfold requests_get. rewrite Hreq, Hreply. reflexivity.
Qed.

Lemma fst_bind_raise {A B} (c : M A) (k : A -> M B) st e :
  fst (c st) = Raise e -> fst (bind c k st) = Raise e.
Proof.
  unfold bind. destruct (c st) as [[a | e'] st1]; simpl; intros H;
    [discriminate H | injection H as ->; reflexivity].
Qed.

(** X2. The reply alone decides what the query hands back: a failed
    transport raises the exception of [requests.get]; status 200 gives the
    decoded body, or the decoder's error when the body is not JSON; any
    other status gives the empty dict. *)
Theorem query_outcome (E : environment) (self : CompaniesHouseService)
    (url query : string) (st : state) :
  fst (_query_ch_api E self url query st)
  = match registry E (length (requests st)) (key self) (format url query) with
    | Failed => Raise RequestException
    | Reply status_code decoded =>
        if status_code =? 200 then
          match decoded with
          | Some result => Ok result
          | None => Raise JSONDecodeError
          end
        else Ok (JObj [])
    end.
Proof.
  destruct (registry E (length (requests st)) (key self) (format url query))
    as [status_code decoded |] eqn:Hreply.
  - destruct (Z.eqb_spec status_code 200) as [-> | Hcode].
    + destruct decoded as [result |].
      * apply query_success, Hreply.
      * apply query_undecodable, Hreply.
    + eapply query_failure; eassumption.
  - apply query_transport_failure, Hreply.
Qed.

(** X3. When the registry answers a request with a status other than
    200, the search, the directors and the charges methods raise
    [KeyError]: each reads ["items"] from the empty dict. *)
Theorem methods_need_items (E : environment) (self : CompaniesHouseService)
    (st : state) (argument : string) :
  (forall url, exists status_code decoded,
     registry E (length (requests st)) (key self) url
     = Reply status_code decoded /\ status_code <> 200) ->
  fst (get_first_company_search E self argument st) = Raise KeyError /\
  fst (get_company_directors E self argument st) = Raise KeyError /\
  fst (get_company_charges E self argument st) = Raise KeyError.
Proof.
  intros Hreply. split; [| split].
  - destruct (Hreply (format search_url argument)) as (code & body & H & Hcode).
    eapply get_first_company_search_failure; eassumption.
  - destruct (Hreply (format root_url
                (argument ++ "?items_per_page=200?start_index=0")))
      as (code & body & H & Hcode).
    pose proof (query_failure E self root_url _ st code body H Hcode) as Hq.
    unfold get_company_directors, bind, lift.
    destruct (_query_ch_api E self root_url _ st) as [r st1].
    simpl in Hq. subst r. reflexivity.
  - destruct (Hreply (format root_url
                (argument ++ "?items_per_page=200?start_index=0")))
      as (code & body & H & Hcode).
    pose proof (query_failure E self root_url _ st code body H Hcode) as Hq.
    unfold get_company_charges, bind, lift.
    destruct (_query_ch_api E self root_url _ st) as [r st1].
    simpl in Hq. subst r. reflexivity.
Qed.

Lemma methods_need_items_witness :
  fst (get_company_directors offline_env sample_service "/company/000/officers"
         (fresh 0)) = Raise KeyError /\
  fst (get_company_charges offline_env sample_service "/company/000/officers"
         (fresh 0)) = Raise KeyError.
Proof.
  destruct (methods_need_items offline_env sample_service (fresh 0)
              "/company/000/officers") as (_ & Hdirectors & Hcharges).
  - intros url. exists 503, None. split; [reflexivity | discriminate].
  - split; [exact Hdirectors | exact Hcharges].
Defined.

(** ** How long the limiter waits *)

(** X4. On a call that is not the first, the limiter sleeps once, for a
    time that is never negative; when the interval has already passed
    since the last request it sleeps for zero, and under a clock that does
    not run backwards it never sleeps longer than the interval. *)
Theorem rate_limiting_wait (E : environment) (self : CompaniesHouseService)
    (st : state) (last : Z) :
  last_request_timestamp st = Some last ->
  (forall n, 0 <= latency E n) ->
  exists wait_time,
    sleeps (snd (_rate_limiting E self st)) = wait_time :: sleeps st /\
    0 <= wait_time /\
    (last + time_between_requests self <= clock st -> wait_time = 0) /\
    (last <= clock st -> wait_time <= Z.max (time_between_requests self) 0).
Proof.
  intros Hlast Hpos. unfold _rate_limiting, bind, get_last_request_timestamp.
  rewrite Hlast. simpl. eexists. split; [reflexivity |].
  pose proof (Hpos (ticks st)). repeat split; lia.
Qed.

Lemma rate_limiting_wait_witness :
  exists wait_time,
    sleeps (snd (_rate_limiting sample_env sample_service
      {| last_request_timestamp := Some 100; clock := 700200; ticks := 3;
         sleeps := []; requests := [(100, "u")] |})) = [wait_time] /\
    wait_time = 0.
Proof.
  destruct (rate_limiting_wait sample_env sample_service
    {| last_request_timestamp := Some 100; clock := 700200; ticks := 3;
       sleeps := []; requests := [(100, "u")] |} 100)
    as (wait_time & Hsleeps & _ & Hzero & _).
  - reflexivity.
  - intros n. simpl. lia.
  - exists wait_time. split; [exact Hsleeps |].
    apply Hzero. simpl. unfold default_time_between_requests. lia.
Defined.

(** ** The timing script *)

Lemma query_clock E self url query st :
  clock (snd (_query_ch_api E self url query st))
  = clock (snd (_rate_limiting E self st))
    + latency E (ticks (snd (_rate_limiting E self st))).
Proof.
  unfold _query_ch_api, bind.
  pose proof (rate_limiting_returns E self st) as [Hok _].
  destruct (_rate_limiting E self st) as [r released]. simpl in *. subst r.
  unfold requests_get.
  destruct (registry E _ _ _) as [code body |]; simpl; [| reflexivity].
  destruct (code =? 200); [destruct body |]; reflexivity.
Qed.

(** After [iterations] further calls the stamp is that many intervals
    later, and the clock is not before it. *)
Lemma profile_loop_stamp E ch_api iterations : forall st st' last,
  (forall n, 0 <= latency E n) ->
  last_request_timestamp st = Some last ->
  last <= clock st ->
  profile_loop E ch_api iterations st = (Ok tt, st') ->
  exists last',
    last_request_timestamp st' = Some last' /\
    last + Z.of_nat iterations * time_between_requests ch_api <= last' /\
    last' <= clock st'.
Proof.
  induction iterations as [| remaining IH]; intros st st' last Hpos Hlast Hclock H.
  - simpl in H. apply ret_ok in H as [_ ->].
    exists last. repeat split; [assumption | lia | assumption].
  - cbn [profile_loop] in H.
    apply bind_ok in H as (ch_profile & st1 & Hcall & H).
    pose proof (f_equal snd Hcall) as Hst1. simpl in Hst1.
    rewrite get_company_profile_state in Hst1.
    destruct (query_request E ch_api st company_url "00445790") as [_ Hstamp].
    pose proof (query_clock E ch_api company_url "00445790" st) as Hafter.
    pose proof (rate_limiting_gap E ch_api st last Hpos Hlast) as Hgap.
    rewrite Hst1 in Hstamp, Hafter.
    pose proof (Hpos (ticks (snd (_rate_limiting E ch_api st)))) as Hlat.
    destruct (IH _ _ _ Hpos Hstamp ltac:(lia) H) as (last' & Hl & Hb & Hc).
    exists last'. repeat split; [exact Hl | lia | exact Hc].
Qed.

Lemma rate_limiting_first_stamp E self st :
  (forall n, 0 <= latency E n) ->
  last_request_timestamp st = None ->
  clock st <= clock (snd (_rate_limiting E self st)).
Proof.
  intros Hpos H. unfold _rate_limiting, bind, get_last_request_timestamp.
  rewrite H. simpl. pose proof (Hpos (ticks st)). lia.
Qed.

(** X5. Under a clock that does not run backwards, when the timing
    script with a client that has made no request ends, the time it
    measured for its [iterations] profile requests is at least
    [iterations - 1] intervals. *)
Theorem benchmark_time (E : environment) (ch_api : CompaniesHouseService)
    (iterations : nat) (st st' : state) (time_taken : Z) :
  (forall n, 0 <= latency E n) ->
  last_request_timestamp st = None ->
  benchmark E ch_api iterations st = (Ok time_taken, st') ->
  Z.of_nat (iterations - 1) * time_between_requests ch_api <= time_taken.
Proof.
  intros Hpos Hnone H. unfold benchmark in H.
  apply bind_ok in H as (tic & st0 & Htic & H).
  apply bind_ok in H as ([] & st2 & Hloop & H).
  apply bind_ok in H as (toc & st3 & Htoc & H).
  apply ret_ok in H as [-> _].
  unfold now in Htic, Htoc.
  injection Htic as <- <-. injection Htoc as <- _.
  pose proof (Hpos (ticks st)) as Hlat0. pose proof (Hpos (ticks st2)) as Hlat2.
  destruct iterations as [| remaining].
  - simpl in Hloop. apply ret_ok in Hloop as [_ ->]. simpl in *. lia.
  - cbn [profile_loop] in Hloop.
    apply bind_ok in Hloop as (ch_profile & st1 & Hcall & Hloop).
    pose proof (f_equal snd Hcall) as Hst1. simpl in Hst1.
    rewrite get_company_profile_state in Hst1.
    set (s0 := {| last_request_timestamp := last_request_timestamp st;
                  clock := clock st + latency E (ticks st);
                  ticks := S (ticks st); sleeps := sleeps st;
                  requests := requests st |}) in *.
    destruct (query_request E ch_api s0 company_url "00445790") as [_ Hstamp].
    pose proof (query_clock E ch_api company_url "00445790" s0) as Hafter.
    pose proof (rate_limiting_first_stamp E ch_api s0 Hpos Hnone) as Hfirst.
    pose proof (Hpos (ticks (snd (_rate_limiting E ch_api s0)))) as Hlat.
    rewrite Hst1 in Hstamp, Hafter.
    destruct (profile_loop_stamp E ch_api remaining st1 st2 _ Hpos Hstamp
                ltac:(lia) Hloop) as (last' & _ & Hbound & Hclock).
    simpl in Hfirst. replace (S remaining - 1)%nat with remaining by lia.
    simpl. lia.
Qed.

Lemma benchmark_time_witness :
  exists time_taken st',
    benchmark offline_env
      {| key := main_key; time_between_requests := default_time_between_requests |}
      main_iterations (fresh 0) = (Ok time_taken, st') /\
    5400000 <= time_taken.
Proof.
  destruct (benchmark offline_env
      {| key := main_key; time_between_requests := default_time_between_requests |}
      main_iterations (fresh 0)) as [[time_taken | e] st'] eqn:Hrun;
    [| vm_compute in Hrun; discriminate Hrun].
  exists time_taken, st'. split; [reflexivity |].
  apply (benchmark_time offline_env
           {| key := main_key; time_between_requests := default_time_between_requests |}
           main_iterations (fresh 0) st' time_taken).
  - intros n. simpl. lia.
  - reflexivity.
  - exact Hrun.
Defined.

(** ** Cleaning a query *)

Lemma occurs_append c s1 s2 :
  occurs c (s1 ++ s2) = occurs c s1 || occurs c s2.
Proof.
  induction s1 as [| c1 s1 IH]; [reflexivity |].
  change (occurs c (String c1 (s1 ++ s2)) = occurs c (String c1 s1) || occurs c s2).
  simpl. rewrite IH. apply orb_assoc.
Qed.

Lemma replace_char_append old new s1 s2 :
  replace_char old new (s1 ++ s2)
  = replace_char old new s1 ++ replace_char old new s2.
Proof.
  induction s1 as [| c s1 IH]; [reflexivity |].
  change (replace_char old new (String c (s1 ++ s2))
          = replace_char old new (String c s1) ++ replace_char old new s2).
  simpl. rewrite IH. destruct (Ascii.eqb c old).
  - symmetry. apply append_assoc.
  - reflexivity.
Qed.

Lemma replace_char_gone old new s :
  occurs old new = false -> occurs old (replace_char old new s) = false.
Proof.
  intros Hnew. induction s as [| c s IH]; [reflexivity |].
  simpl. destruct (Ascii.eqb c old) eqn:Hc.
  - rewrite occurs_append, Hnew, IH. reflexivity.
  - simpl. rewrite Hc, IH. reflexivity.
Qed.

Lemma replace_char_stays c old new s :
  occurs c new = false -> occurs c s = false ->
  occurs c (replace_char old new s) = false.
Proof.
  intros Hnew. induction s as [| c' s IH]; [reflexivity |].
  simpl. intros H. apply orb_false_iff in H as [Hc Hs].
  destruct (Ascii.eqb c' old).
  - rewrite occurs_append, Hnew, IH by exact Hs. reflexivity.
  - simpl. rewrite Hc, IH by exact Hs. reflexivity.
Qed.

Lemma replace_char_absent old new s :
  occurs old s = false -> replace_char old new s = s.
Proof.
  induction s as [| c s IH]; [reflexivity |].
  simpl. intros H. apply orb_false_iff in H as [Hc Hs].
  rewrite Hc, IH by exact Hs. reflexivity.
Qed.

(** X6. What [_remove_problem_characters] returns holds neither a space
    nor an ampersand; a text that holds neither comes back as it is, so
    cleaning a second time changes nothing. *)
Theorem remove_problem_characters_clean (text : string) :
  occurs " " (_remove_problem_characters text) = false /\
  occurs "&" (_remove_problem_characters text) = false /\
  (occurs " " text = false -> occurs "&" text = false ->
   _remove_problem_characters text = text) /\
  _remove_problem_characters (_remove_problem_characters text)
  = _remove_problem_characters text.
Proof.
  assert (Hspace : occurs " " (_remove_problem_characters text) = false).
  { unfold _remove_problem_characters.
    apply replace_char_stays; [reflexivity |].
    apply replace_char_gone. reflexivity. }
  assert (Hamp : occurs "&" (_remove_problem_characters text) = false).
  { unfold _remove_problem_characters. apply replace_char_gone. reflexivity. }
  assert (Hid : forall s, occurs " " s = false -> occurs "&" s = false ->
                          _remove_problem_characters s = s).
  { intros s Hs Ha. unfold _remove_problem_characters.
    rewrite (replace_char_absent " " "+" s Hs).
    apply replace_char_absent, Ha. }
  repeat split; [exact Hspace | exact Hamp | apply Hid |].
  apply Hid; assumption.
Qed.

Lemma remove_problem_characters_clean_witness :
  _remove_problem_characters "ACME+LTD" = "ACME+LTD".
Proof.
  destruct (remove_problem_characters_clean "ACME+LTD") as (_ & _ & Hsame & _).
  apply Hsame; reflexivity.
Defined.

(** X7. Cleaning goes through a concatenation: the text of two parts put
    together is cleaned part by part. *)
Theorem remove_problem_characters_append (s1 s2 : string) :
  _remove_problem_characters (s1 ++ s2)
  = _remove_problem_characters s1 ++ _remove_problem_characters s2.
Proof.
  unfold _remove_problem_characters. rewrite !replace_char_append. reflexivity.
Qed.

Example remove_problem_characters_sample :
  _remove_problem_characters "marks & spencer" = "marks+%26+spencer".
Proof. reflexivity. Qed.

(** ** The first search result, when there are items *)

Lemma get_first_company_search_items_witness :
  fst (get_first_company_search sample_env sample_service "acme" (fresh 0))
  = Ok (JObj [("title", JStr "ACME LTD")]).
Proof.
  apply (get_first_company_search_items sample_env sample_service "acme"
           (fresh 0) sample_search
           [JObj [("title", JStr "ACME LTD")]; JObj [("title", JStr "ACME 2 LTD")]]);
    reflexivity.
Defined.

(** ** The rows of the charges *)

Lemma count_loop_status charges_list : forall requiredLength n,
  count_loop charges_list requiredLength = Ok n ->
  Forall (has_key "status") charges_list.
Proof.
  induction charges_list as [| charge rest IH]; intros requiredLength n H.
  - constructor.
  - simpl in H. destruct (getitem charge "status") as [status | e] eqn:Hstatus;
      simpl in H; [| discriminate H].
    constructor; [exists status; exact Hstatus |].
    destruct (negb (is_str "fully-satisfied" status)); eapply IH; exact H.
Qed.

(** What a page must have been for [get_company_charges] to return. *)
Lemma get_company_charges_returned (E : environment)
    (self : CompaniesHouseService) (charges_path : string) (st : state)
    (rows : list (list string)) :
  fst (get_company_charges E self charges_path st) = Ok rows ->
  Forall (fun row => length row = 6%nat) rows /\
  exists charges_list,
    Forall2 (fun charge row => charge_fields charge = Ok row)
      (List.filter unsatisfied charges_list) rows /\
    (length rows <= length charges_list)%nat /\
    (Forall (fun charge => unsatisfied charge = false) charges_list ->
     rows = []).
Proof.
  unfold get_company_charges, bind, lift. intros H.
  destruct (_query_ch_api E self root_url _ st) as [[charges | e] st1];
    [| discriminate H].
  destruct (getitem charges "items") as [items | e]; [| discriminate H].
  destruct (iterate items) as [elements | e]; [| discriminate H].
  destruct (count_loop elements 0) as [n | e] eqn:Hcount; [| discriminate H].
  simpl in H.
  pose proof (count_loop_status _ _ _ Hcount) as Hstatus.
  rewrite count_loop_filter in Hcount by exact Hstatus.
  injection Hcount as <-.
  rewrite fill_loop_traverse in H; try assumption; try reflexivity.
  - destruct (traverse charge_fields (List.filter unsatisfied elements))
      as [rows' | e] eqn:Htraverse; simpl in H; [| discriminate H].
    injection H as <-.
    pose proof (traverse_length _ _ _ Htraverse) as Hrows.
    split.
    + clear - Hrows. induction Hrows as [| charge row ? ? Hrow _ IH];
        constructor; [eapply charge_fields_length; exact Hrow | exact IH].
    + exists elements. split; [exact Hrows |]. split.
      * rewrite <- (Forall2_length _ _ _ Hrows). apply List.filter_length_le.
      * intros Hnone.
        assert (Hfilter : List.filter unsatisfied elements = []).
        { clear - Hnone. induction Hnone as [| charge rest Hc _ IH];
            [reflexivity |]. simpl. rewrite Hc. exact IH. }
        rewrite Hfilter in Hrows. inversion Hrows. reflexivity.
  - apply length_replicate.
  - apply Forall_replicate. reflexivity.
Qed.



(** * Further properties of the batch reader *)

(** ** What a whole run keeps

    A relation between states that is indexed by a number of requests,
    holds of a state and itself at zero, composes by adding, and is kept
    by one query at one, is kept by a turn of the loop at three and by the
    run at three for each row that has a number. *)

Section Kept.

Variable R : nat -> state -> state -> Prop.
Variable E : environment.
Variable api : CompaniesHouseService.
Variable config : flags.

Hypothesis R_start : forall st, R 0 st st.
Hypothesis R_more : forall n m st st', (n <= m)%nat -> R n st st' -> R m st st'.
Hypothesis R_then :
  forall n m st1 st2 st3, R n st1 st2 -> R m st2 st3 -> R (n + m) st1 st3.
Hypothesis R_query :
  forall url query st, R 1 st (snd (_query_ch_api E api url query st)).

Lemma always_ret {A} (a : A) : always (R 0) (ret a).
Proof. intros st. apply R_start. Qed.

Lemma always_lift {A} (o : outcome A) : always (R 0) (lift o).
Proof. intros st. apply R_start. Qed.

Lemma always_more {A} n m (c : M A) :
  (n <= m)%nat -> always (R n) c -> always (R m) c.
Proof. intros Hle H st. eapply R_more; [exact Hle | apply H]. Qed.

Lemma always_bind {A B} n m (c : M A) (k : A -> M B) :
  always (R n) c -> (forall a, always (R m) (k a)) ->
  always (R (n + m)) (bind c k).
Proof.
  intros Hc Hk st. unfold bind. specialize (Hc st).
  destruct (c st) as [[a | e] st1]; simpl in *.
  - eapply R_then; [exact Hc | apply Hk].
  - eapply R_more; [| exact Hc]. lia.
Qed.

Lemma always_and_then n m previous step :
  always (R n) previous -> (forall df, always (R m) (step df)) ->
  always (R (n + m)) (and_then previous step).
Proof.
  intros Hp Hs. unfold and_then. apply always_bind; [exact Hp |].
  intros [df | df]; [| apply Hs].
  eapply always_more; [| apply always_ret]. lia.
Qed.

Lemma always_get_company_profile company_number :
  always (R 1) (get_company_profile E api company_number).
Proof. intros st. rewrite get_company_profile_state. apply R_query. Qed.

Lemma always_get_company_directors officers_path :
  always (R 1) (get_company_directors E api officers_path).
Proof. intros st. rewrite get_company_directors_state. apply R_query. Qed.

Lemma always_get_company_charges charges_path :
  always (R 1) (get_company_charges E api charges_path).
Proof. intros st. rewrite get_company_charges_state. apply R_query. Qed.

(** Steps that only compute leave the state alone. *)
Ltac pure_steps :=
  repeat first
    [ apply (always_bind 0 0); [apply always_lift | intros ?]
    | apply always_lift
    | apply always_ret ].

Lemma always_officers_step profile index df :
  always (R 1) (officers_step E api config profile index df).
Proof.
  unfold officers_step.
  destruct (getOfficers config);
    [| eapply always_more; [| apply always_ret]; lia].
  apply (always_bind 0 1); [apply always_lift | intros links].
  apply (always_bind 0 1); [apply always_lift | intros present].
  destruct (negb present).
  - eapply always_more; [| pure_steps]. lia.
  - apply (always_bind 0 1); [apply always_lift | intros links'].
    apply (always_bind 0 1); [apply always_lift | intros officers].
    apply (always_bind 1 0); [apply always_get_company_directors |].
    intros directors. pure_steps.
Qed.

Lemma always_charges_step profile index df :
  always (R 1) (charges_step E api config profile index df).
Proof.
  unfold charges_step.
  destruct (getCharges config);
    [| eapply always_more; [| apply always_ret]; lia].
  apply (always_bind 0 1); [apply always_lift | intros links].
  apply (always_bind 0 1); [apply always_lift | intros present].
  destruct (negb present).
  - eapply always_more; [| pure_steps]. lia.
  - apply (always_bind 0 1); [apply always_lift | intros links'].
    apply (always_bind 0 1); [apply always_lift | intros charges_link].
    apply (always_bind 1 0); [apply always_get_company_charges |].
    intros charges. pure_steps.
Qed.

Lemma always_insolvency_step profile index df :
  always (R 0) (insolvency_step config profile index df).
Proof.
  unfold insolvency_step.
  destruct (getInsolvency config); [| apply always_ret].
  apply (always_bind 0 0); [apply always_lift | intros links].
  apply (always_bind 0 0); [apply always_lift | intros present].
  destruct (negb present); pure_steps.
Qed.

Lemma always_loop_body index row df :
  always (R (if has_number row then 3 else 0))
    (loop_body E api config index row df).
Proof.
  unfold loop_body, has_number.
  destruct (String.eqb _ "nan"); simpl; [apply always_ret |].
  apply (always_bind 1 2); [apply always_get_company_profile |].
  intros profile. destruct (is_empty_dict profile).
  - eapply always_more; [| apply always_ret]. lia.
  - apply (always_bind 0 2); [apply always_lift | intros df1].
    apply (always_bind 2 0); [| intros reached; apply always_ret].
    apply (always_and_then 2 0).
    + apply (always_and_then 2 0).
      * apply (always_and_then 1 1).
        -- apply always_officers_step.
        -- intros df2. apply always_charges_step.
      * intros df2. apply always_insolvency_step.
    + intros df2. pure_steps.
Qed.

Lemma always_rows_loop rows : forall index df,
  always (R (3 * length (List.filter has_number rows)))
    (rows_loop E api config index rows df).
Proof.
  induction rows as [| row rest IH]; intros index df.
  - apply always_ret.
  - cbn [rows_loop List.filter].
    eapply always_more;
      [| apply (always_bind (if has_number row then 3 else 0)
                  (3 * length (List.filter has_number rest)));
         [apply always_loop_body | intros df1; apply IH]].
    destruct (has_number row); simpl; lia.
Qed.

End Kept.

Lemma sends_at_most_query E api url query st :
  sends_at_most 1 st (snd (_query_ch_api E api url query st)).
Proof.
  unfold sends_at_most.
  destruct (query_request E api st url query) as [-> _]. simpl. lia.
Qed.

(** X10. A run, whether it ends or raises, sends at most three requests
    for each row that has a company number and none for the blank rows;
    a turn of the loop for a blank row sends none. *)
Theorem fetch_all_requests (E : environment) (api : CompaniesHouseService)
    (config : flags) (df : list (gmap string string)) (st : state) :
  (length (requests (snd (fetch_all E api config df st)))
   <= length (requests st) + 3 * length (List.filter has_number df))%nat /\
  (forall index row df1,
     has_number row = false ->
     requests (snd (loop_body E api config index row df1 st)) = requests st).
Proof.
  split.
  - apply (always_rows_loop sends_at_most E api config); unfold sends_at_most.
    + intros st0. lia.
    + intros n m st0 st1 Hle H. lia.
    + intros n m st1 st2 st3 H1 H2. lia.
    + apply sends_at_most_query.
  - intros index row df1 Hrow. unfold loop_body, has_number in *.
    destruct (String.eqb _ "nan"); [reflexivity | discriminate Hrow].
Qed.

Lemma fetch_all_requests_witness :
  requests (snd (loop_body sample_env sample_service all_flags 1 ∅
                   sample_frame (fresh 0))) = [].
Proof.
  destruct (fetch_all_requests sample_env sample_service all_flags
              sample_frame (fresh 0)) as [_ Hblank].
  apply (Hblank 1%nat ∅ sample_frame). reflexivity.
Defined.

(** X11. Under a clock that does not run backwards, a run keeps the
    request log well spaced, whether it ends or raises: from a client that
    has made no request, any two consecutive requests of the whole batch
    leave at least [time_between_requests] apart. *)
Theorem fetch_all_paced (E : environment) (api : CompaniesHouseService)
    (config : flags) (df : list (gmap string string)) (st : state) :
  (forall n, 0 <= latency E n) ->
  paced (time_between_requests api) st ->
  paced (time_between_requests api) (snd (fetch_all E api config df st)).
Proof.
  intros Hpos Hst.
  apply (always_rows_loop
           (fun _ st0 st1 => paced (time_between_requests api) st0 ->
                             paced (time_between_requests api) st1)
           E api config).
  - intros st0 H. exact H.
  - intros n m st0 st1 _ H. exact H.
  - intros n m st1 st2 st3 H1 H2 H. apply H2, H1, H.
  - intros url query st0 [Hs Hw]. apply query_spaced; assumption.
  - exact Hst.
Qed.

Lemma fetch_all_paced_witness :
  well_spaced 600000
    (map fst (requests
       (snd (fetch_all sample_env sample_service all_flags sample_frame
               (fresh 0))))).
Proof.
  apply (fetch_all_paced sample_env sample_service all_flags sample_frame
           (fresh 0)).
  - intros n. simpl. lia.
  - split; simpl; exact I.
Defined.

(** ** Cells a run leaves alone *)

Lemma profile_columns_written config : profile_columns ⊆ written_columns config.
Proof.
  unfold written_columns. intros x Hx. apply elem_of_app. left. exact Hx.
Qed.

Lemma directors_written config :
  (if getOfficers config then ["Directors"] else []) ⊆ written_columns config.
Proof.
  unfold written_columns. intros x Hx.
  apply elem_of_app. right. apply elem_of_app. left. exact Hx.
Qed.

Lemma charges_written config :
  (if getCharges config then ["Charges"] else []) ⊆ written_columns config.
Proof.
  unfold written_columns. intros x Hx.
  apply elem_of_app. right. apply elem_of_app. right.
  apply elem_of_app. left. exact Hx.
Qed.

Lemma insolvency_written config :
  (if getInsolvency config then ["Insolvency"] else [])
  ⊆ written_columns config.
Proof.
  unfold written_columns. intros x Hx.
  apply elem_of_app. right. apply elem_of_app. right.
  apply elem_of_app. right. exact Hx.
Qed.

Lemma officers_step_touches_flag E api config profile index df st reached st' :
  officers_step E api config profile index df st = (Ok reached, st') ->
  touches (if getOfficers config then ["Directors"] else []) index df
    (frame_of reached).
Proof.
  intros H. destruct (getOfficers config) eqn:Hflag.
  - eapply officers_step_touches, H.
  - unfold officers_step in H. rewrite Hflag in H. returned. apply touches_refl.
Qed.

Lemma charges_step_touches_flag E api config profile index df st reached st' :
  charges_step E api config profile index df st = (Ok reached, st') ->
  touches (if getCharges config then ["Charges"] else []) index df
    (frame_of reached).
Proof.
  intros H. destruct (getCharges config) eqn:Hflag.
  - eapply charges_step_touches, H.
  - unfold charges_step in H. rewrite Hflag in H. returned. apply touches_refl.
Qed.

Lemma insolvency_step_touches_flag config profile index df st reached st' :
  insolvency_step config profile index df st = (Ok reached, st') ->
  touches (if getInsolvency config then ["Insolvency"] else []) index df
    (frame_of reached).
Proof.
  intros H. destruct (getInsolvency config) eqn:Hflag.
  - eapply insolvency_step_touches, H.
  - unfold insolvency_step in H. rewrite Hflag in H. returned.
    apply touches_refl.
Qed.

Lemma loop_body_touches_written E api config index row df st df' st' :
  loop_body E api config index row df st = (Ok df', st') ->
  touches (written_columns config) index df df'.
Proof.
  unfold loop_body. intros H.
  destruct (String.eqb _ "nan"); [returned; apply touches_refl |].
  returned. destruct (is_empty_dict x).
  - returned. eapply touches_subseteq; [apply profile_columns_written |].
    repeat (eapply touches_trans;
            [| apply at_set_touches; unfold profile_columns; listed]).
    apply touches_refl.
  - returned.
    eapply touches_trans.
    { eapply touches_subseteq; [apply profile_columns_written |].
      eapply profile_fields_touches; eassumption. }
    eapply and_then_touches; [| | eassumption].
    + intros st0 r st3 H3.
      eapply and_then_touches; [| | exact H3].
      * intros st4 r4 st5 H5.
        eapply and_then_touches; [| | exact H5].
        -- intros st6 r6 st7 H7. eapply touches_subseteq;
             [apply directors_written
             | eapply officers_step_touches_flag; exact H7].
        -- intros df0 st6 r6 st7 H7. eapply touches_subseteq;
             [apply charges_written
             | eapply charges_step_touches_flag; exact H7].
      * intros df0 st4 r4 st5 H5. eapply touches_subseteq;
          [apply insolvency_written
          | eapply insolvency_step_touches_flag; exact H5].
    + intros df0 st0 r st3 H3. cbv beta in H3. returned. apply touches_refl.
Qed.

(** X12. A turn of the loop that returns changes the frame in its own row
    only, and there only in the four profile columns and the columns whose
    flag is on: the number of rows, every other row and every other cell
    of the row are as before. *)
Theorem loop_body_frame (E : environment) (api : CompaniesHouseService)
    (config : flags) (index : nat) (row : gmap string string)
    (df df' : list (gmap string string)) (st st' : state) :
  loop_body E api config index row df st = (Ok df', st') ->
  length df' = length df /\
  (forall j, j <> index -> df' !! j = df !! j) /\
  (forall j column, column ∉ written_columns config ->
     at_get df' j column = at_get df j column).
Proof. apply loop_body_touches_written. Qed.

Lemma loop_body_frame_witness :
  let run := loop_body sample_env sample_service source_flags 2
               {[ "Company Number" := "000" ]} sample_frame (fresh 0) in
  fst run = Ok (frame_or_empty (fst run)) /\
  frame_or_empty (fst run) !! 0%nat = sample_frame !! 0%nat /\
  at_get (frame_or_empty (fst run)) 2 "Directors" = None.
Proof.
  intros run.
  assert (Hrun : run = (Ok (frame_or_empty (fst run)), snd run))
    by exact (@eq_refl _ run <: run = (Ok (frame_or_empty (fst run)), snd run)).
  destruct (loop_body_frame sample_env sample_service source_flags 2
              {[ "Company Number" := "000" ]} sample_frame
              (frame_or_empty (fst run)) (fresh 0) (snd run) Hrun)
    as (_ & Hrows & Hcells).
  split; [exact (f_equal fst Hrun) |]. split.
  - apply Hrows. discriminate.
  - rewrite Hcells;
      [exact (@eq_refl _ (@None string) <: at_get sample_frame 2 "Directors" = None) |].
    unfold written_columns, profile_columns. simpl. intros H.
    repeat (apply elem_of_cons in H as [H | H]; [discriminate H |]).
    inversion H.
Defined.

Lemma rows_loop_columns E api config columns rows : forall index df st out st',
  (forall i row df0 st0 df1 st1,
     loop_body E api config i row df0 st0 = (Ok df1, st1) ->
     touches columns i df0 df1) ->
  rows_loop E api config index rows df st = (Ok out, st') ->
  forall j column, column ∉ columns ->
    at_get out j column = at_get df j column.
Proof.
  induction rows as [| row rest IH]; intros index df st out st' Hbody H;
    simpl in H.
  - returned. reflexivity.
  - apply bind_ok in H as (df1 & st1 & Hturn & H).
    intros j column Hnot.
    rewrite (IH _ _ _ _ _ Hbody H j column Hnot).
    destruct (Hbody _ _ _ _ _ _ Hturn) as (_ & _ & Hcells).
    apply Hcells, Hnot.
Qed.

(** X13. When a run ends, every cell outside the four profile columns and
    the columns whose flag is on holds what it held: with a flag off its
    column is never written, and no column of the input other than these
    is ever changed. *)
Theorem fetch_all_columns (E : environment) (api : CompaniesHouseService)
    (config : flags) (df out : list (gmap string string)) (st st' : state) :
  fetch_all E api config df st = (Ok out, st') ->
  forall j column, column ∉ written_columns config ->
    at_get out j column = at_get df j column.
Proof.
  unfold fetch_all. intros H.
  eapply rows_loop_columns; [| exact H].
  intros i row df0 st0 df1 st1. apply loop_body_touches_written.
Qed.

Lemma fetch_all_columns_witness :
  let df := [ ({[ "Company Number" := "000" ]} : gmap string string);
              (∅ : gmap string string) ] in
  let run := fetch_all sample_env sample_service source_flags df (fresh 0) in
  fst run = Ok (frame_or_empty (fst run)) /\
  at_get (frame_or_empty (fst run)) 0 "Charges" = None.
Proof.
  intros df run.
  assert (Hrun : run = (Ok (frame_or_empty (fst run)), snd run))
    by exact (@eq_refl _ run <: run = (Ok (frame_or_empty (fst run)), snd run)).
  split; [exact (f_equal fst Hrun) |].
  rewrite (fetch_all_columns sample_env sample_service source_flags
             df (frame_or_empty (fst run)) (fresh 0) (snd run)
             Hrun 0%nat "Charges").
  - exact (@eq_refl _ (@None string) <: at_get df 0 "Charges" = None).
  - unfold written_columns, profile_columns. simpl. intros H.
    repeat (apply elem_of_cons in H as [H | H]; [discriminate H |]).
    inversion H.
Defined.

(** ** Runs that stop early *)

Lemma rows_loop_app E api config rows1 rows2 : forall index df st,
  rows_loop E api config index (rows1 ++ rows2) df st
  = bind (rows_loop E api config index rows1 df)
      (fun df1 => rows_loop E api config (index + length rows1) rows2 df1) st.
Proof.
  induction rows1 as [| row rest IH]; intros index df st.
  - simpl. unfold bind, ret. rewrite Nat.add_0_r. reflexivity.
  - cbn [app rows_loop length]. unfold bind.
    destruct (loop_body E api config index row df st) as [[df1 | e] st1];
      [| reflexivity].
    rewrite IH. unfold bind.
    replace (S index + length rest)%nat with (index + S (length rest))%nat
      by lia.
    reflexivity.
Qed.

(** X14. Nothing in the loop catches an exception: when the rows before
    a row went through and the profile request of that row raises, the
    whole run raises that exception at that point; the rows after it get
    no turn and no frame is returned. *)
Theorem fetch_all_aborts (E : environment) (api : CompaniesHouseService)
    (config : flags) (before after : list (gmap string string))
    (row : gmap string string) (df1 : list (gmap string string))
    (st st1 st2 : state) (e : exn) :
  rows_loop E api config 0 before (before ++ row :: after) st = (Ok df1, st1) ->
  has_number row = true ->
  get_company_profile E api (cell_str (row !! "Company Number")) st1
  = (Raise e, st2) ->
  fetch_all E api config (before ++ row :: after) st = (Raise e, st2).
Proof.
  intros Hbefore Hrow Hprofile. unfold fetch_all.
  rewrite rows_loop_app. rewrite (bind_run _ _ _ _ _ Hbefore).
  cbn [rows_loop]. unfold bind at 1.
  unfold loop_body, has_number in *.
  destruct (String.eqb _ "nan"); [discriminate Hrow |].
  unfold bind at 1. rewrite Hprofile. reflexivity.
Qed.

Lemma fetch_all_aborts_witness :
  fst (fetch_all lossy_env sample_service source_flags
         [ (∅ : gmap string string);
           {[ "Company Number" := "000" ]};
           {[ "Company Number" := "SC000001" ]} ] (fresh 0))
  = Raise RequestException.
Proof.
  set (before := [ (∅ : gmap string string) ]).
  set (row := ({[ "Company Number" := "000" ]} : gmap string string)).
  set (after := [ ({[ "Company Number" := "SC000001" ]} : gmap string string) ]).
  set (run := rows_loop lossy_env sample_service source_flags 0 before
                (before ++ row :: after) (fresh 0)).
  set (call := get_company_profile lossy_env sample_service
                 (cell_str (row !! "Company Number")) (snd run)).
  assert (Hbefore : run = (Ok (frame_or_empty (fst run)), snd run))
    by exact (@eq_refl _ run <: run = (Ok (frame_or_empty (fst run)), snd run)).
  assert (Hprofile : call = (Raise RequestException, snd call))
    by exact (@eq_refl _ call <: call = (Raise RequestException, snd call)).
  assert (Hrow : has_number row = true)
    by exact (@eq_refl _ true <: has_number row = true).
  exact (f_equal fst
           (fetch_all_aborts lossy_env sample_service source_flags before
              after row (frame_or_empty (fst run))
              (fresh 0) (snd run) (snd call)
              RequestException Hbefore Hrow Hprofile)).
Defined.

(** ** What is written in the cells *)

(** X8. When the search is answered with status 200 and a result whose
    ["items"] is a list, [get_first_company_search] returns the first
    item, and [None] when the list is empty. *)
Theorem first_search_result (E : environment) (self : CompaniesHouseService)
    (company_name : string) (st : state) (search_result : json)
    (items : list json) :
  registry E (length (requests st)) (key self) (format search_url company_name)
  = Reply 200 (Some search_result) ->
  getitem search_result "items" = Ok (JArr items) ->
  fst (get_first_company_search E self company_name st)
  = Ok (match items with first_result :: _ => first_result | [] => JNull end).
Proof. apply get_first_company_search_items. Qed.

Lemma first_search_result_witness :
  fst (get_first_company_search sample_env sample_service "acme" (fresh 0))
  = Ok (JObj [("title", JStr "ACME LTD")]).
Proof.
  apply (first_search_result sample_env sample_service "acme"
           (fresh 0) sample_search
           [JObj [("title", JStr "ACME LTD")]; JObj [("title", JStr "ACME 2 LTD")]]);
    reflexivity.
Defined.

Lemma directors_string_loop_text names : forall directors_string,
  directors_string_loop (map JStr names) directors_string
  = Ok (directors_string ++ directors_text names).
Proof.
  induction names as [| name rest IH]; intros directors_string.
  - simpl. rewrite append_empty_r. reflexivity.
  - cbn [map directors_string_loop directors_text fold_right].
    rewrite IH. fold (directors_text rest). rewrite append_assoc. reflexivity.
Qed.

(** X15. With directors asked for and an ["officers"] link, when the
    directors come back as names the Directors cell is every name followed
    by [" | "], the last one too, and the empty text when there is no
    director; the step then goes on to the charges. *)
Theorem officers_step_directors (E : environment)
    (api : CompaniesHouseService) (config : flags) (profile links officers : json)
    (index : nat) (df : list (gmap string string)) (st st1 : state)
    (names : list string) :
  getOfficers config = true ->
  getitem profile "links" = Ok links ->
  contains "officers" links = Ok true ->
  getitem links "officers" = Ok officers ->
  get_company_directors E api (str E officers) st = (Ok (map JStr names), st1) ->
  is_Some (at_get df index "Company Number") ->
  is_Some (at_get df index "Company Name") ->
  officers_step E api config profile index df st
  = (Ok (Next (at_set df index "Directors" (directors_text names))), st1).
Proof.
  intros Hflag Hlinks Hpresent Hofficers Hcall [number Hnumber] [name Hname].
  unfold officers_step. rewrite Hflag.
  unfold bind at 1, lift at 1. rewrite Hlinks.
  unfold bind at 1, lift at 1. rewrite Hpresent. cbn [negb].
  unfold bind at 1, lift at 1.
  unfold bind at 1, lift at 1. rewrite Hofficers.
  rewrite (bind_run _ _ _ _ _ Hcall).
  unfold bind at 1, lift at 1. rewrite directors_string_loop_text.
  unfold bind, lift, ret, print_cell.
  rewrite !at_get_at_set_other by discriminate.
  rewrite Hnumber, Hname. reflexivity.
Qed.

Lemma officers_step_directors_witness :
  let df := [ ({[ "Company Number" := "00445790";
                  "Company Name" := "ACME LTD" ]} : gmap string string) ] in
  fst (officers_step sample_env sample_service all_flags
         (JObj [("links", JObj [("officers", JStr "/company/00445790/officers")])])
         0 df (fresh 0))
  = Ok (Next (at_set df 0 "Directors" "DOE, Jane | POE, Edgar | ")).
Proof.
  intros df.
  set (call := get_company_directors sample_env sample_service
                 "/company/00445790/officers" (fresh 0)).
  assert (Hcall : call = (Ok (map JStr ["DOE, Jane"; "POE, Edgar"]), snd call))
    by exact (@eq_refl _ call
              <: call = (Ok (map JStr ["DOE, Jane"; "POE, Edgar"]), snd call)).
  rewrite (officers_step_directors sample_env sample_service all_flags
             (JObj [("links", JObj [("officers", JStr "/company/00445790/officers")])])
             (JObj [("officers", JStr "/company/00445790/officers")])
             (JStr "/company/00445790/officers") 0 df (fresh 0) (snd call)
             ["DOE, Jane"; "POE, Edgar"]).
  - reflexivity.
  - reflexivity.
  - reflexivity.
  - reflexivity.
  - reflexivity.
  - exact Hcall.
  - exists "00445790".
    exact (@eq_refl _ (Some "00445790")
           <: at_get df 0 "Company Number" = Some "00445790").
  - exists "ACME LTD".
    exact (@eq_refl _ (Some "ACME LTD")
           <: at_get df 0 "Company Name" = Some "ACME LTD").
Defined.

Lemma fields_loop_lines charge : forall width fieldIndex charges_string,
  length charge = (fieldIndex + width)%nat ->
  fields_loop charge (seq fieldIndex width) charges_string
  = Ok (charges_string ++ lines (drop fieldIndex charge)).
Proof.
  induction width as [| width IH]; intros fieldIndex charges_string Hlen.
  - simpl. rewrite drop_ge by lia. simpl. rewrite append_empty_r. reflexivity.
  - cbn [seq fields_loop].
    destruct (lookup_lt_is_Some_2 charge fieldIndex ltac:(lia)) as [field Hfield].
    rewrite Hfield, IH by lia.
    rewrite (drop_S _ _ _ Hfield). cbn [lines fold_right].
    fold (lines (drop (S fieldIndex) charge)).
    rewrite append_assoc. reflexivity.
Qed.

Lemma charges_string_loop_text width charges : forall chargeIndex charges_string,
  Forall (fun charge => length charge = width) charges ->
  charges_string_loop charges chargeIndex width charges_string
  = Ok (charges_string ++ charges_text chargeIndex charges).
Proof.
  induction charges as [| charge rest IH]; intros chargeIndex charges_string Hall.
  - simpl. rewrite append_empty_r. reflexivity.
  - apply Forall_cons in Hall as [Hcharge Hrest].
    cbn [charges_string_loop charges_text].
    rewrite fields_loop_lines by (rewrite Hcharge; reflexivity).
    cbn [obind]. rewrite IH by exact Hrest. rewrite drop_0.
    unfold charge_block. repeat rewrite append_assoc. reflexivity.
Qed.

(** X16. With charges asked for and a ["charges"] link, when the charges
    come back the Charges cell is their blocks, numbered from 1, each the
    number and a colon on a line, the six fields on a line each and an
    empty line, with the white space at both ends of the whole stripped;
    with no charge left the cell is the empty text. *)
Theorem charges_step_text (E : environment)
    (api : CompaniesHouseService) (config : flags)
    (profile links charges_link : json)
    (index : nat) (df : list (gmap string string)) (st st1 : state)
    (charges : list (list string)) :
  getCharges config = true ->
  getitem profile "links" = Ok links ->
  contains "charges" links = Ok true ->
  getitem links "charges" = Ok charges_link ->
  get_company_charges E api (str E charges_link) st = (Ok charges, st1) ->
  charges_step E api config profile index df st
  = (Ok (Next (at_set df index "Charges" (strip (charges_text 1 charges)))),
     st1) /\
  (charges = [] -> strip (charges_text 1 charges) = "").
Proof.
  intros Hflag Hlinks Hpresent Hlink Hcall. split; [| intros ->; reflexivity].
  pose proof (get_company_charges_returned E api _ st charges
                (f_equal fst Hcall)) as [Hsix _].
  unfold charges_step. rewrite Hflag.
  unfold bind at 1, lift at 1. rewrite Hlinks.
  unfold bind at 1, lift at 1. rewrite Hpresent. cbn [negb].
  unfold bind at 1, lift at 1.
  unfold bind at 1, lift at 1. rewrite Hlink.
  rewrite (bind_run _ _ _ _ _ Hcall).
  unfold bind, lift, ret.
  destruct charges as [| charge rest]; [reflexivity |].
  pose proof (proj1 (proj1 (Forall_cons _ _ _) Hsix)) as Hwidth.
  cbv beta in Hwidth. rewrite Hwidth.
  rewrite (charges_string_loop_text 6) by exact Hsix.
  reflexivity.
Qed.

Lemma charges_step_text_witness :
  let rows :=
    [["Description: A registered charge"; "Created: 2015-01-02";
      "Delivered: 2015-01-09"; "Status: outstanding";
      "Persons entitled: Bank B";
      "Short particulars: All that freehold land..."];
     ["Description: A registered charge"; "Created: 2015-01-02";
      "Delivered: 2015-01-09"; "Status: part-satisfied";
      "Persons entitled: Bank D"; "[No Result]"]] in
  fst (charges_step sample_env sample_service all_flags sample_profile 0
         [ (∅ : gmap string string) ] (fresh 0))
  = Ok (Next (at_set [ (∅ : gmap string string) ] 0 "Charges"
                (strip (charges_text 1 rows)))).
Proof.
  intros rows.
  set (call := get_company_charges sample_env sample_service
                 "/company/00445790/charges" (fresh 0)).
  assert (Hcall : call = (Ok rows, snd call))
    by exact (@eq_refl _ call <: call = (Ok rows, snd call)).
  destruct (charges_step_text sample_env sample_service all_flags
              sample_profile
              (JObj [("self", JStr "/company/00445790");
                     ("charges", JStr "/company/00445790/charges")])
              (JStr "/company/00445790/charges") 0
              [ (∅ : gmap string string) ] (fresh 0) (snd call) rows)
    as [Hstep _].
  - reflexivity.
  - reflexivity.
  - reflexivity.
  - reflexivity.
  - exact Hcall.
  - rewrite Hstep. reflexivity.
Defined.

(** ** The profile columns *)




(** ** The format of a file *)

Lemma length_append (s1 s2 : string) :
  String.length (s1 ++ s2) = (String.length s1 + String.length s2)%nat.
Proof.
  induction s1 as [| c s1 IH]; [reflexivity |].
  change (S (String.length (s1 ++ s2))
          = S (String.length s1 + String.length s2)).
  f_equal. exact IH.
Qed.

Lemma substring_all (s : string) : String.substring 0 (String.length s) s = s.
Proof.
  induction s as [| c s IH]; [reflexivity |]. simpl. f_equal. exact IH.
Qed.

Lemma substring_append_right (s1 s2 : string) :
  String.substring (String.length s1) (String.length s2) (s1 ++ s2) = s2.
Proof.
  induction s1 as [| c s1 IH]; [apply substring_all |].
  change (String.substring (String.length s1) (String.length s2) (s1 ++ s2)
          = s2).
  exact IH.
Qed.

Lemma substring_split (s : string) : forall i,
  (i <= String.length s)%nat ->
  s = String.substring 0 i s ++ String.substring i (String.length s - i) s.
Proof.
  induction s as [| c s IH]; intros i Hi.
  - destruct i; [reflexivity | simpl in Hi; lia].
  - destruct i as [| i].
    + change (String c s
              = String c (String.substring 0 (String.length s) s)).
      f_equal. symmetry. apply substring_all.
    + simpl in Hi.
      change (String c s
              = String c (String.substring 0 i s
                          ++ String.substring i (String.length s - i) s)).
      f_equal. apply IH. lia.
Qed.

Lemma substring_length (s : string) : forall i m,
  (String.length (String.substring i m s) <= String.length s)%nat.
Proof.
  induction s as [| c s IH]; intros i m.
  - destruct i, m; simpl; lia.
  - destruct i as [| i].
    + destruct m as [| m]; simpl; [lia |].
      specialize (IH 0%nat m). lia.
    + simpl. specialize (IH i m). lia.
Qed.

(** The slice of the last [n] characters picks out a suffix of [n]
    characters, and nothing else. *)
Lemma slice_suffix (path suffix : string) :
  let n := String.length suffix in
  (0 < n)%nat ->
  slice path (Z.of_nat (String.length path) - Z.of_nat n)
    (Z.of_nat (String.length path)) = suffix
  <-> exists stem, path = stem ++ suffix.
Proof.
  intros n Hn. unfold slice, slice_bound. split.
  - intros H.
    destruct (Nat.le_gt_cases n (String.length path)) as [Hle | Hgt].
    + exists (String.substring 0 (String.length path - n) path).
      rewrite <- H.
      destruct (Z.ltb_spec (Z.of_nat (String.length path) - Z.of_nat n) 0);
        [lia |].
      destruct (Z.ltb_spec (Z.of_nat (String.length path)) 0); [lia |].
      replace (Z.to_nat (Z.min (Z.max (Z.of_nat (String.length path)
                 - Z.of_nat n) 0) (Z.of_nat (String.length path))))
        with (String.length path - n)%nat by lia.
      replace (Z.to_nat (Z.min (Z.max (Z.of_nat (String.length path)) 0)
                 (Z.of_nat (String.length path))))
        with (String.length path) by lia.
      apply substring_split. lia.
    + exfalso. pose proof (substring_length path
        (Z.to_nat (Z.min (Z.max
           (if Z.of_nat (String.length path) - Z.of_nat n <? 0
            then Z.of_nat (String.length path) - Z.of_nat n
                 + Z.of_nat (String.length path)
            else Z.of_nat (String.length path) - Z.of_nat n) 0)
           (Z.of_nat (String.length path))))
        (Z.to_nat (Z.min (Z.max
           (if Z.of_nat (String.length path) <? 0
            then Z.of_nat (String.length path) + Z.of_nat (String.length path)
            else Z.of_nat (String.length path)) 0)
           (Z.of_nat (String.length path)))
         - Z.to_nat (Z.min (Z.max
           (if Z.of_nat (String.length path) - Z.of_nat n <? 0
            then Z.of_nat (String.length path) - Z.of_nat n
                 + Z.of_nat (String.length path)
            else Z.of_nat (String.length path) - Z.of_nat n) 0)
           (Z.of_nat (String.length path))))) as Hlen.
      rewrite H in Hlen. fold n in Hlen. lia.
  - intros [stem ->]. rewrite length_append. fold n.
    destruct (Z.ltb_spec (Z.of_nat (String.length stem + n) - Z.of_nat n) 0);
      [lia |].
    destruct (Z.ltb_spec (Z.of_nat (String.length stem + n)) 0); [lia |].
    replace (Z.to_nat (Z.min (Z.max (Z.of_nat (String.length stem + n)
               - Z.of_nat n) 0) (Z.of_nat (String.length stem + n))))
      with (String.length stem) by lia.
    replace (Z.to_nat (Z.min (Z.max (Z.of_nat (String.length stem + n)) 0)
               (Z.of_nat (String.length stem + n))) - String.length stem)%nat
      with n by lia.
    apply substring_append_right.
Qed.

(** X18. The path the dialog gave is read, and the frame saved, as CSV
    exactly when the path ends in [".csv"] and as Excel exactly when it
    ends in [".xlsx"]; any other path, the empty path of a closed dialog
    among them, takes neither branch. *)
Theorem format_of_suffix (path : string) :
  (format_of path = Some Csv <-> exists stem, path = stem ++ ".csv") /\
  (format_of path = Some Xlsx <-> exists stem, path = stem ++ ".xlsx") /\
  format_of "" = None.
Proof.
  pose proof (slice_suffix path ".csv" ltac:(simpl; lia)) as Hcsv.
  pose proof (slice_suffix path ".xlsx" ltac:(simpl; lia)) as Hxlsx.
  simpl in Hcsv, Hxlsx. unfold format_of.
  change (Z.of_nat 4) with 4 in Hcsv. change (Z.of_nat 5) with 5 in Hxlsx.
  destruct (String.eqb_spec (slice path (Z.of_nat (String.length path) - 4)
              (Z.of_nat (String.length path))) ".csv") as [Hc | Hc].
  - split; [| split; [| reflexivity]].
    + split; [intros _; apply Hcsv, Hc | reflexivity].
    + split; [discriminate |].
      intros [stem ->]. exfalso.
      assert (Hx : exists stem', stem ++ ".xlsx" = stem' ++ "xlsx").
      { exists (stem ++ "."). rewrite append_assoc. reflexivity. }
      apply (slice_suffix (stem ++ ".xlsx") "xlsx" ltac:(simpl; lia)) in Hx.
      simpl in Hx. change (Z.of_nat 4) with 4 in Hx.
      rewrite Hx in Hc. discriminate Hc.
  - split; [| split; [| reflexivity]].
    + split.
      * destruct (String.eqb _ ".xlsx"); discriminate.
      * intros Hstem. apply Hcsv in Hstem. contradiction.
    + destruct (String.eqb_spec (slice path (Z.of_nat (String.length path) - 5)
                  (Z.of_nat (String.length path))) ".xlsx") as [Hx | Hx].
      * split; [intros _; apply Hxlsx, Hx | reflexivity].
      * split; [discriminate |].
        intros Hstem. apply Hxlsx in Hstem. contradiction.
Qed.

Lemma format_of_suffix_witness :
  format_of "companies.csv" = Some Csv /\ format_of "companies.xlsx" = Some Xlsx.
Proof.
  destruct (format_of_suffix "companies.csv") as ((_ & Hcsv) & _ & _).
  destruct (format_of_suffix "companies.xlsx") as (_ & (_ & Hxlsx) & _).
  split.
  - apply Hcsv. exists "companies". reflexivity.
  - apply Hxlsx. exists "companies". reflexivity.
Defined.

Example format_of_samples :
  format_of "C:/data/companies.csv" = Some Csv /\
  format_of "companies.xlsx" = Some Xlsx /\
  format_of "companies.xls" = None /\
  format_of "csv" = None.
Proof. repeat split. Qed.
